(** * challenge-4-orchestrator: the SQS consumer pipeline

    A shallow embedding of the Go orchestrator: the poll cycle, the
    per-message pipeline (decode, integrity gate, registry scan, health
    filter, selection, dispatch, acknowledge) and the Lambda client it
    calls.

    The AWS services, [math/rand], [time.Sleep] and the decoders of
    [encoding/json] and [attributevalue] are not code of the repository:
    they are taken as the fields of a [Services] record, over an abstract
    [world] that the effectful ones thread.  Every call that leaves the
    process is also recorded as an [Event], in program order, so that
    "is never called", "only after" and "in receipt order" are statements
    about the trace of a run.

    Two versions of the consumer are in the sources: the pipeline consumer,
    which reads a message body as direct JSON ([Pipeline]), and the first
    consumer, which reads it as an SNS envelope and whose business logic
    is a stub ([SNSVariant]).  The cancellation loop [Start] around
    [pollMessages] is in [Lifecycle] and [InvokeSyncWithResponse] in
    [Client].  [log.Printf] calls, [main], the health server, the
    asynchronous Lambda calls and the other DynamoDB wrappers are not
    modelled.

    Whether [json.Unmarshal] into [any] returns an error depends on the
    body alone: [jsonscan] transcribes the scanner of [encoding/json]
    that decides syntax, and [jsonnumber] the range test of
    [strconv.ParseFloat] that decides numbers. *)

From Stdlib Require Import String List ZArith Lia Bool.
Import ListNotations.

Set Warnings "-register-all".

Local Open Scope string_scope.
Local Open Scope Z_scope.

(** ** Data model *)

(** Go's [any] after [json.Unmarshal]: [nil], [bool], [float64], [string],
    [[]any] and [map[string]any].  A [float64] is carried as its IEEE-754
    bit pattern; the pipeline never looks inside a payload. *)
Inductive any : Type :=
| JNull
| JBool (b : bool)
| JNumber (bits : Z)
| JString (s : string)
| JArray (elems : list any)
| JObject (fields : list (string * any)).

(** [github.com/aws/aws-sdk-go-v2/service/sqs/types]: the three pointer
    fields of [types.Message] the consumer reads. *)
Module types.
Record Message : Type := {
  Body : option string;
  ReceiptHandle : option string;
  MessageId : option string
}.
End types.

(** [github.com/aws/aws-sdk-go-v2/service/dynamodb/types]. *)
Module dynamodbtypes.
Inductive AttributeValue : Type :=
| AttributeValueMemberB (Value : string)
| AttributeValueMemberBOOL (Value : bool)
| AttributeValueMemberBS (Value : list string)
| AttributeValueMemberL (Value : list AttributeValue)
| AttributeValueMemberM (Value : list (string * AttributeValue))
| AttributeValueMemberN (Value : string)
| AttributeValueMemberNS (Value : list string)
| AttributeValueMemberNULL (Value : bool)
| AttributeValueMemberS (Value : string)
| AttributeValueMemberSS (Value : list string).
End dynamodbtypes.

(** One scanned registry row, [map[string]types.AttributeValue]. *)
Definition Item : Type := list (string * dynamodbtypes.AttributeValue).

(** [github.com/aws/aws-sdk-go-v2/service/lambda]: the two fields of
    [lambda.InvokeOutput] that [InvokeSync] reads. *)
Module lambda.
Record InvokeOutput : Type := {
  FunctionError : option string;
  Payload : string
}.
End lambda.

(** [type Status string] and its two constants. *)
Definition Status : Type := string.
Definition Healthy : Status := "saludable".
Definition Unhealthy : Status := "fallando".

(** [type Lambda struct], the worker descriptor. *)
Record Lambda : Type := {
  ID : string;
  ARN : string;
  URL : string;
  Status_ : Status;
  Name : string;
  LastHeartBeat : string
}.

(** [type LambdaResponse struct], the integrity verdict. *)
Record LambdaResponse : Type := {
  StatusCode : Z;
  Body : any
}.

(** [type DynamoDBClient struct], without the SDK handle. *)
Record DynamoDBClient : Type := {
  tableName : string
}.

Definition IntegrityLambda : string :=
  "arn:aws:lambda:us-east-1:652276263254:function:validacionDatos-py".

(** [time.Second], in nanoseconds as [time.Duration] counts. *)
Definition Second : Z := 1000000000.

(** The [error] values the code builds, one constructor per [fmt.Errorf]
    site; [SdkError] is an error returned by an AWS client call. *)
Inductive Error : Type :=
| SdkError (msg : string)
| ErrMarshalingPayload
| ErrInvokingLambda (cause : Error)
| ErrLambdaFunction (functionError payload : string)
| ErrScanning (cause : Error)
| ErrCallingIntegrityLambda (cause : Error)
| ErrUnmarshallingJson
| ErrNotMatchingSignatures (integrity : LambdaResponse)
| ErrItemNotFound (table : string) (cause : Error)
| ErrFailedToUnmarshalItem
| ErrNoHealthyLambdas
| ErrInvokingSelectedLambda (arn : string) (cause : Error).

(** A Go [(value, err)] pair in which exactly one side is set. *)
Inductive Res (A : Type) : Type :=
| Ok (a : A)
| Fail (err : Error).
Arguments Ok {A} a.
Arguments Fail {A} err.

(** ** External calls and their trace *)

Inductive Event : Type :=
| EvReceiveMessage (QueueUrl : string)
    (MaxNumberOfMessages WaitTimeSeconds VisibilityTimeout : Z)
| EvSleep (d : Z)
| EvDeleteMessage (QueueUrl ReceiptHandle : string)
| EvInvoke (FunctionName Payload : string)
| EvScan (TableName : string)
| EvIntn (n : Z).

Module sns.
(** [type SNSWrapper struct] of the enveloped variant. *)
Record SNSWrapper : Type := {
  Type_ : string;
  Message : string;
  MessageId : string;
  TopicArn : string;
  Timestamp : string
}.
End sns.

(** Everything the consumer calls and does not define.  The decoders and
    [json.Marshal] are functions of their input alone; the service calls
    and the random source read and change the [world].  [rand_Intn_range]
    is the documented contract of [rand.Intn]: a result in [[0,n)]. *)
Record Services : Type := {
  world : Type;
  sqs_ReceiveMessage :
    string -> Z -> Z -> Z -> world -> Res (list types.Message) * world;
  sqs_DeleteMessage : string -> string -> world -> Res unit * world;
  lambda_Invoke : string -> string -> world -> Res lambda.InvokeOutput * world;
  dynamodb_Scan : string -> world -> Res (list Item) * world;
  rand_Intn : Z -> world -> Z * world;
  rand_Intn_range :
    forall n w, 0 < n -> 0 <= fst (rand_Intn n w) < n;
  time_Sleep : Z -> world -> world;
  json_Marshal : any -> option string;
  json_Unmarshal_any : string -> option any;
  json_Unmarshal_LambdaResponse : string -> option LambdaResponse;
  json_Unmarshal_SNSWrapper : string -> option sns.SNSWrapper;
  json_Unmarshal_map : string -> option (list (string * any));
  attributevalue_UnmarshalMap : Item -> option Lambda
}.

(** ** The monad of a run: state over the world, writer over the trace *)

Record Run (W A : Type) : Type := mkRun {
  value : A;
  final : W;
  trace : list Event
}.
Arguments mkRun {W A} value final trace.
Arguments value {W A} r.
Arguments final {W A} r.
Arguments trace {W A} r.

Definition M (W A : Type) : Type := W -> Run W A.

Definition ret {W A} (a : A) : M W A := fun w => mkRun a w [].

Definition bind {W A B} (m : M W A) (f : A -> M W B) : M W B :=
  fun w =>
    let r1 := m w in
    let r2 := f (value r1) (final r1) in
    mkRun (value r2) (final r2) (trace r1 ++ trace r2).

(** One external call: its result, the world after it, and its event. *)
Definition call {W A} (e : Event) (step : W -> A * W) : M W A :=
  fun w => mkRun (fst (step w)) (snd (step w)) [e].

Declare Scope run_scope.
Delimit Scope run_scope with run.
Notation "x <- m ;; k" := (bind m (fun x => k))
  (at level 61, m at next level, right associativity) : run_scope.
Notation "m ;; k" := (bind m (fun _ => k))
  (at level 61, right associativity) : run_scope.
Local Open Scope run_scope.

(** How a call of [handleBusinessLogic] ends: [return nil], [return err],
    or a run-time panic of the index expression [lambdas[i]]. *)
Inductive HResult : Type :=
| HNil
| HErr (err : Error)
| HPanic.

(** Which [return] of [processMessage] a run takes.  The Go function has
    no result; the model returns the exit it left through, named after the
    state machine of the pipeline: the two decode-failure exits are
    [Dropped], the exit on a business-logic error is [Deferred], the fall
    through to the last line is [Acknowledged]. *)
Inductive Outcome : Type :=
| Dropped
| Deferred (err : Error)
| Acknowledged
| Panicked.

(** The outcome of the [switch len(lambdas)] block. *)
Inductive Selection : Type :=
| NoneHealthy
| Selected (selectedLambda : Lambda)
| IndexOutOfRange.

(** [lambdas[i]] on a Go slice: a panic outside [[0, len)]. *)
Definition index {A} (l : list A) (i : Z) : option A :=
  if i <? 0 then None else nth_error l (Z.to_nat i).

(** ** The pipeline consumer (direct JSON bodies) with its clients *)

Module Pipeline.

(** [type SQSConsumer struct], without the SDK handles. *)
Record SQSConsumer : Type := {
  dynamoDBClient : DynamoDBClient;
  queueURL : string
}.

Section WithServices.
Variable S : Services.
Let W : Type := world S.

(** lambda.go, [InvokeSync]. *)
Definition InvokeSync (functionName : string) (payload : any)
  : M W (Res string) :=
  match json_Marshal S payload with
  | None => ret (Fail ErrMarshalingPayload)
  | Some payloadBytes =>
      result <- call (EvInvoke functionName payloadBytes)
                     (lambda_Invoke S functionName payloadBytes) ;;
      match result with
      | Fail err => ret (Fail (ErrInvokingLambda err))
      | Ok out =>
          match lambda.FunctionError out with
          | Some functionError =>
              ret (Fail (ErrLambdaFunction functionError
                                           (lambda.Payload out)))
          | None => ret (Ok (lambda.Payload out))
          end
      end
  end.

(** [DynamoDBClient.Scan] as the consumer calls it, with a nil filter
    expression. *)
Definition Scan (d : DynamoDBClient) : M W (Res (list Item)) :=
  result <- call (EvScan (tableName d)) (dynamodb_Scan S (tableName d)) ;;
  match result with
  | Fail err => ret (Fail (ErrScanning err))
  | Ok items => ret (Ok items)
  end.

(** The [for _, item := range items] loop of [handleBusinessLogic];
    [lambdas] is the slice built so far. *)
Fixpoint healthyLambdas (items : list Item) (lambdas : list Lambda)
  : Res (list Lambda) :=
  match items with
  | [] => Ok lambdas
  | item :: rest =>
      match attributevalue_UnmarshalMap S item with
      | None => Fail ErrFailedToUnmarshalItem
      | Some lambda =>
          if String.eqb (Status_ lambda) Healthy
          then healthyLambdas rest (lambdas ++ [lambda])
          else healthyLambdas rest lambdas
      end
  end.

(** The [switch len(lambdas)] block of [handleBusinessLogic]. *)
Definition selectLambda (lambdas : list Lambda) : M W Selection :=
  match length lambdas with
  | O => ret NoneHealthy
  | 1%nat =>
      match index lambdas 0 with
      | Some l => ret (Selected l)
      | None => ret IndexOutOfRange
      end
  | _ =>
      let n := Z.of_nat (length lambdas) in
      i <- call (EvIntn n) (rand_Intn S n) ;;
      match index lambdas i with
      | Some l => ret (Selected l)
      | None => ret IndexOutOfRange
      end
  end.

Definition handleBusinessLogic (c : SQSConsumer) (msg : any)
  : M W HResult :=
  r <- InvokeSync IntegrityLambda msg ;;
  match r with
  | Fail err => ret (HErr (ErrCallingIntegrityLambda err))
  | Ok payload =>
      match json_Unmarshal_LambdaResponse S payload with
      | None => ret (HErr ErrUnmarshallingJson)
      | Some integrity =>
          if negb (StatusCode integrity =? 200)
          then ret (HErr (ErrNotMatchingSignatures integrity))
          else
            r <- Scan (dynamoDBClient c) ;;
            match r with
            | Fail err =>
                ret (HErr (ErrItemNotFound
                             (tableName (dynamoDBClient c)) err))
            | Ok items =>
                match healthyLambdas items [] with
                | Fail err => ret (HErr err)
                | Ok lambdas =>
                    sel <- selectLambda lambdas ;;
                    match sel with
                    | NoneHealthy => ret (HErr ErrNoHealthyLambdas)
                    | IndexOutOfRange => ret HPanic
                    | Selected selectedLambda =>
                        r <- InvokeSync (ARN selectedLambda) msg ;;
                        match r with
                        | Fail err =>
                            ret (HErr (ErrInvokingSelectedLambda
                                         (ARN selectedLambda) err))
                        | Ok _ => ret HNil
                        end
                    end
                end
            end
      end
  end.

Definition deleteMessage (c : SQSConsumer) (message : types.Message)
  : M W unit :=
  match types.ReceiptHandle message with
  | None => ret tt
  | Some receiptHandle =>
      _ <- call (EvDeleteMessage (queueURL c) receiptHandle)
                (sqs_DeleteMessage S (queueURL c) receiptHandle) ;;
      ret tt
  end.

Definition processMessage (c : SQSConsumer) (message : types.Message)
  : M W Outcome :=
  match types.Body message with
  | None => deleteMessage c message ;; ret Dropped
  | Some body =>
      match json_Unmarshal_any S body with
      | None => deleteMessage c message ;; ret Dropped
      | Some appMessage =>
          r <- handleBusinessLogic c appMessage ;;
          match r with
          | HErr err => ret (Deferred err)
          | HPanic => ret Panicked
          | HNil => deleteMessage c message ;; ret Acknowledged
          end
      end
  end.

(** The [for _, message := range result.Messages] loop of
    [pollMessages]; a panic unwinds out of the loop. *)
Fixpoint processMessages (c : SQSConsumer) (messages : list types.Message)
  : M W (list Outcome) :=
  match messages with
  | [] => ret []
  | message :: rest =>
      o <- processMessage c message ;;
      match o with
      | Panicked => ret [Panicked]
      | _ => os <- processMessages c rest ;; ret (o :: os)
      end
  end.

Definition pollMessages (c : SQSConsumer) : M W (list Outcome) :=
  result <- call (EvReceiveMessage (queueURL c) 10 20 30)
                 (sqs_ReceiveMessage S (queueURL c) 10 20 30) ;;
  match result with
  | Fail err =>
      call (EvSleep (5 * Second))
           (fun w => (tt, time_Sleep S (5 * Second) w)) ;;
      ret []
  | Ok messages => processMessages c messages
  end.

End WithServices.
End Pipeline.

(** ** The first consumer (SNS-enveloped bodies), consumer.go *)

Module SNSVariant.

Record SQSConsumer : Type := {
  queueURL : string
}.

Section WithServices.
Variable S : Services.
Let W : Type := world S.

(** The stub of this variant: it logs and returns [nil]. *)
Definition handleBusinessLogic (msg : list (string * any)) : option Error :=
  None.

Definition deleteMessage (c : SQSConsumer) (message : types.Message)
  : M W unit :=
  match types.ReceiptHandle message with
  | None => ret tt
  | Some receiptHandle =>
      _ <- call (EvDeleteMessage (queueURL c) receiptHandle)
                (sqs_DeleteMessage S (queueURL c) receiptHandle) ;;
      ret tt
  end.

Definition processMessage (c : SQSConsumer) (message : types.Message)
  : M W Outcome :=
  match types.Body message with
  | None => deleteMessage c message ;; ret Dropped
  | Some body =>
      match json_Unmarshal_SNSWrapper S body with
      | None => deleteMessage c message ;; ret Dropped
      | Some snsWrapper =>
          match json_Unmarshal_map S (sns.Message snsWrapper) with
          | None => deleteMessage c message ;; ret Dropped
          | Some appMessage =>
              match handleBusinessLogic appMessage with
              | Some err => ret (Deferred err)
              | None => deleteMessage c message ;; ret Acknowledged
              end
          end
      end
  end.

Fixpoint processMessages (c : SQSConsumer) (messages : list types.Message)
  : M W (list Outcome) :=
  match messages with
  | [] => ret []
  | message :: rest =>
      o <- processMessage c message ;;
      os <- processMessages c rest ;;
      ret (o :: os)
  end.

Definition pollMessages (c : SQSConsumer) : M W (list Outcome) :=
  result <- call (EvReceiveMessage (queueURL c) 10 20 30)
                 (sqs_ReceiveMessage S (queueURL c) 10 20 30) ;;
  match result with
  | Fail err =>
      call (EvSleep (5 * Second))
           (fun w => (tt, time_Sleep S (5 * Second) w)) ;;
      ret []
  | Ok messages => processMessages c messages
  end.

End WithServices.
End SNSVariant.

(** ** Scripted services for concrete runs

    A fake queue, validator, registry, invoker and random source in the
    style of a table-driven test: the world holds what each collaborator
    will answer, and the decoders are finite tables over the bodies the
    scenarios use. *)

Module Fake.

Record World : Type := {
  receive : Res (list types.Message);
  functions : list (string * Res lambda.InvokeOutput);
  registry : Res (list Item);
  draws : list Z;
  deleted : list string;
  slept : Z
}.

Fixpoint assoc {A} (k : string) (l : list (string * A)) : option A :=
  match l with
  | [] => None
  | (k', a) :: rest => if String.eqb k k' then Some a else assoc k rest
  end.

Definition ReceiveMessage (q : string) (max wait vis : Z) (w : World)
  : Res (list types.Message) * World :=
  (receive w, w).

Definition DeleteMessage (q h : string) (w : World) : Res unit * World :=
  (Ok tt,
   {| receive := receive w; functions := functions w;
      registry := registry w; draws := draws w;
      deleted := deleted w ++ [h]; slept := slept w |}).

Definition Invoke (fn payload : string) (w : World)
  : Res lambda.InvokeOutput * World :=
  (match assoc fn (functions w) with
   | Some r => r
   | None => Fail (SdkError "ResourceNotFoundException")
   end, w).

Definition ScanTable (table : string) (w : World) : Res (list Item) * World :=
  (registry w, w).

Definition Intn (n : Z) (w : World) : Z * World :=
  (hd 0 (draws w) mod n,
   {| receive := receive w; functions := functions w;
      registry := registry w; draws := tl (draws w);
      deleted := deleted w; slept := slept w |}).

Definition Sleep (d : Z) (w : World) : World :=
  {| receive := receive w; functions := functions w;
     registry := registry w; draws := draws w;
     deleted := deleted w; slept := slept w + d |}.

(** The double quote, and a quoted JSON string. *)
Definition dq : string := String (Ascii.ascii_of_nat 34) EmptyString.
Definition q (s : string) : string := dq ++ s ++ dq.

(** The order, as [json.Marshal] would write it back: keys sorted, no
    white space.  [{"amount":42,"orderId":"123"}] *)
Definition order_body : string :=
  "{" ++ q "amount" ++ ":42," ++ q "orderId" ++ ":" ++ q "123" ++ "}".
Definition order : any :=
  JObject [("amount", JNumber 0x4045000000000000); ("orderId", JString "123")].

(** An SNS notification whose [Message] is the order, in the same
    form. *)
Definition envelope_message : string :=
  "{\" ++ q "amount\" ++ ":42,\" ++ q "orderId\" ++ ":\" ++ q "123\"
  ++ "}".
Definition envelope_body : string :=
  "{" ++ q "Message" ++ ":" ++ q envelope_message ++ ","
  ++ q "Type" ++ ":" ++ q "Notification" ++ "}".
Definition envelope : any :=
  JObject [("Message", JString order_body); ("Type", JString "Notification")].

Definition ok_verdict : string :=
  "{" ++ q "statusCode" ++ ":200," ++ q "body" ++ ":" ++ q "ok" ++ "}".
Definition bad_verdict : string :=
  "{" ++ q "statusCode" ++ ":500," ++ q "body" ++ ":" ++ q "tampered" ++ "}".
Definition done_response : string :=
  "{" ++ q "statusCode" ++ ":200," ++ q "body" ++ ":{" ++ q "result"
  ++ ":" ++ q "done" ++ "}}".

Definition values : list (string * any) :=
  [ (order_body, order);
    (envelope_body, envelope);
    ("42", JNumber 0x4045000000000000);
    (q "hello", JString "hello");
    ("true", JBool true);
    ("null", JNull);
    ("[]", JArray []) ].

Fixpoint any_eqb (a b : any) {struct a} : bool :=
  match a, b with
  | JNull, JNull => true
  | JBool x, JBool y => Bool.eqb x y
  | JNumber x, JNumber y => x =? y
  | JString x, JString y => String.eqb x y
  | JArray xs, JArray ys =>
      (fix all2 (xs ys : list any) : bool :=
         match xs, ys with
         | [], [] => true
         | x :: xs', y :: ys' => any_eqb x y && all2 xs' ys'
         | _, _ => false
         end) xs ys
  | JObject xs, JObject ys =>
      (fix all2 (xs ys : list (string * any)) : bool :=
         match xs, ys with
         | [], [] => true
         | (k, x) :: xs', (k', y) :: ys' =>
             String.eqb k k' && any_eqb x y && all2 xs' ys'
         | _, _ => false
         end) xs ys
  | _, _ => false
  end.

Fixpoint rassoc (v : any) (l : list (string * any)) : option string :=
  match l with
  | [] => None
  | (s, v') :: rest => if any_eqb v v' then Some s else rassoc v rest
  end.

Definition Marshal (v : any) : option string := rassoc v values.
Definition Unmarshal_any (s : string) : option any := assoc s values.

Definition Unmarshal_LambdaResponse (s : string) : option LambdaResponse :=
  assoc s
    [ (ok_verdict, {| StatusCode := 200; Body := JString "ok" |});
      (bad_verdict, {| StatusCode := 500; Body := JString "tampered" |});
      ("{}", {| StatusCode := 0; Body := JNull |}) ].

Definition Unmarshal_SNSWrapper (s : string) : option sns.SNSWrapper :=
  assoc s
    [ (envelope_body,
       {| sns.Type_ := "Notification"; sns.Message := order_body;
          sns.MessageId := ""; sns.TopicArn := ""; sns.Timestamp := "" |});
      (order_body,
       {| sns.Type_ := ""; sns.Message := "";
          sns.MessageId := ""; sns.TopicArn := ""; sns.Timestamp := "" |}) ].

Definition Unmarshal_map (s : string) : option (list (string * any)) :=
  match assoc s values with
  | Some (JObject fields) => Some fields
  | Some JNull => Some []
  | _ => None
  end.

(** A string field is read from an [S] member and left empty when the
    key is missing; any other member under the key is a type error. *)
Definition field (k : string) (item : Item) : option string :=
  match assoc k item with
  | None => Some ""
  | Some (dynamodbtypes.AttributeValueMemberS v) => Some v
  | Some _ => None
  end.

Definition UnmarshalMap (item : Item) : option Lambda :=
  match field "id" item, field "arn" item, field "direccionLambda" item,
        field "estadoSalud" item, field "nombreLambda" item,
        field "ultimoLatido" item with
  | Some i, Some a, Some u, Some s, Some n, Some h =>
      Some {| ID := i; ARN := a; URL := u; Status_ := s; Name := n;
              LastHeartBeat := h |}
  | _, _, _, _, _, _ => None
  end.

Definition services : Services :=
  {| world := World;
     sqs_ReceiveMessage := ReceiveMessage;
     sqs_DeleteMessage := DeleteMessage;
     lambda_Invoke := Invoke;
     dynamodb_Scan := ScanTable;
     rand_Intn := Intn;
     rand_Intn_range :=
       fun n w Hn => Z.mod_pos_bound (hd 0 (draws w)) n Hn;
     time_Sleep := Sleep;
     json_Marshal := Marshal;
     json_Unmarshal_any := Unmarshal_any;
     json_Unmarshal_LambdaResponse := Unmarshal_LambdaResponse;
     json_Unmarshal_SNSWrapper := Unmarshal_SNSWrapper;
     json_Unmarshal_map := Unmarshal_map;
     attributevalue_UnmarshalMap := UnmarshalMap |}.

(** Registry rows. *)
Definition row (id arn status name : string) : Item :=
  [ ("id", dynamodbtypes.AttributeValueMemberS id);
    ("arn", dynamodbtypes.AttributeValueMemberS arn);
    ("direccionLambda", dynamodbtypes.AttributeValueMemberS "");
    ("estadoSalud", dynamodbtypes.AttributeValueMemberS status);
    ("nombreLambda", dynamodbtypes.AttributeValueMemberS name);
    ("ultimoLatido", dynamodbtypes.AttributeValueMemberS "") ].

Definition rowA : Item := row "1" "arn:A" Healthy "A".
Definition rowB : Item := row "2" "arn:B" Healthy "B".
Definition rowC : Item := row "3" "arn:C" Unhealthy "C".
Definition row_malformed : Item :=
  [ ("id", dynamodbtypes.AttributeValueMemberS "4");
    ("estadoSalud", dynamodbtypes.AttributeValueMemberBOOL true) ].

Definition lambdaA : Lambda :=
  {| ID := "1"; ARN := "arn:A"; URL := ""; Status_ := Healthy; Name := "A";
     LastHeartBeat := "" |}.
Definition lambdaB : Lambda :=
  {| ID := "2"; ARN := "arn:B"; URL := ""; Status_ := Healthy; Name := "B";
     LastHeartBeat := "" |}.

Definition answers (payload : string) : Res lambda.InvokeOutput :=
  Ok {| lambda.FunctionError := None; lambda.Payload := payload |}.

Definition message (body handle : option string) : types.Message :=
  {| types.Body := body; types.ReceiptHandle := handle;
     types.MessageId := Some "m-1" |}.

(** The world of the first scenario: the validator accepts, A and B are
    healthy, C is not, every worker answers. *)
Definition world0 : World :=
  {| receive := Ok [message (Some order_body) (Some "rh-1")];
     functions :=
       [ (IntegrityLambda, answers ok_verdict);
         ("arn:A", answers done_response);
         ("arn:B", answers done_response);
         ("arn:C", answers done_response) ];
     registry := Ok [rowA; rowC; rowB];
     draws := [7; 4];
     deleted := [];
     slept := 0 |}.

Definition with_functions (fs : list (string * Res lambda.InvokeOutput))
  (w : World) : World :=
  {| receive := receive w; functions := fs; registry := registry w;
     draws := draws w; deleted := deleted w; slept := slept w |}.

Definition with_registry (r : Res (list Item)) (w : World) : World :=
  {| receive := receive w; functions := functions w; registry := r;
     draws := draws w; deleted := deleted w; slept := slept w |}.

Definition with_receive (r : Res (list types.Message)) (w : World) : World :=
  {| receive := r; functions := functions w; registry := registry w;
     draws := draws w; deleted := deleted w; slept := slept w |}.

Definition consumer : Pipeline.SQSConsumer :=
  {| Pipeline.dynamoDBClient := {| tableName := "lambdas" |};
     Pipeline.queueURL := "https://sqs/queue" |}.

Definition sns_consumer : SNSVariant.SQSConsumer :=
  {| SNSVariant.queueURL := "https://sqs/queue" |}.

Definition order_message : types.Message :=
  message (Some order_body) (Some "rh-1").

(** The validator answers with status 500. *)
Definition world_rejecting : World :=
  with_functions
    [ (IntegrityLambda, answers bad_verdict);
      ("arn:A", answers done_response);
      ("arn:B", answers done_response) ] world0.

(** Only C, flagged Unhealthy, is registered. *)
Definition world_unhealthy : World := with_registry (Ok [rowC]) world0.

(** A row that does not decode sits between two healthy ones. *)
Definition world_malformed : World :=
  with_registry (Ok [rowA; row_malformed; rowB]) world0.

(** Worker B answers with a function-error signal. *)
Definition world_failing_worker : World :=
  with_functions
    [ (IntegrityLambda, answers ok_verdict);
      ("arn:A", answers done_response);
      ("arn:B",
       Ok {| lambda.FunctionError := Some "Unhandled";
             lambda.Payload := "{}" |}) ] world0.

(** The queue is unreachable. *)
Definition world_unreachable : World :=
  with_receive (Fail (SdkError "RequestError")) world0.

(** A batch of two: a body that is not JSON, then the order. *)
Definition world_batch : World :=
  with_receive
    (Ok [ message (Some "not json") (Some "rh-0");
          message (Some order_body) (Some "rh-1") ]) world0.

End Fake.

(** ** The rest of the Lambda client, lambda.go *)

Module Client.

(** How [InvokeSyncWithResponse] ends: [return nil] with the value written
    through [response], the error of [InvokeSync] returned as it is, or
    the decoding error. *)
Inductive Decoded (R : Type) : Type :=
| Written (response : R)
| InvokeFailed (err : Error)
| ErrUnmarshalingResponse.
Arguments Written {R} response.
Arguments InvokeFailed {R} err.
Arguments ErrUnmarshalingResponse {R}.

Section WithServices.
Variable S : Services.
Let W : Type := world S.

(** [InvokeSyncWithResponse]; [unmarshal] is [json.Unmarshal] into the
    type the caller's [response] points to. *)
Definition InvokeSyncWithResponse {R : Type} (unmarshal : string -> option R)
  (functionName : string) (payload : any) : M W (Decoded R) :=
  r <- Pipeline.InvokeSync S functionName payload ;;
  match r with
  | Fail err => ret (InvokeFailed err)
  | Ok responseBytes =>
      match unmarshal responseBytes with
      | None => ret ErrUnmarshalingResponse
      | Some response => ret (Written response)
      end
  end.

End WithServices.
End Client.

(** ** The consume loop, [Start] *)

Module Lifecycle.

(** How a bounded run of [Start] ends: it returned after seeing the
    context cancelled, a panic unwound through it, or the loop is still
    turning when the fuel is spent. *)
Inductive Exit : Type :=
| Returned
| Crashed
| StillRunning.

Definition is_panicked (o : Outcome) : bool :=
  match o with Panicked => true | _ => false end.

Section WithContext.
Variable S : Services.
Let W : Type := world S.

(** Whether [ctx.Done()] is closed at the moment the [select] looks. *)
Variable ctx_Done : W -> bool.

(** [Start], with the outcomes of every batch it polled.  [fuel] bounds
    the number of turns of the [for] loop. *)
Fixpoint Start (fuel : nat) (c : Pipeline.SQSConsumer)
  : M W (Exit * list (list Outcome)) :=
  match fuel with
  | O => ret (StillRunning, [])
  | Datatypes.S fuel' =>
      fun w =>
        if ctx_Done w then ret (Returned, []) w
        else
          (os <- Pipeline.pollMessages S c ;;
           if existsb is_panicked os then ret (Crashed, [os])
           else
             r <- Start fuel' c ;;
             ret (fst r, os :: snd r)) w
  end.

(** Whole poll cycles one after the other, each begun in a world where
    the context is not cancelled. *)
Inductive cycles (c : Pipeline.SQSConsumer)
  : W -> list (list Outcome) -> list Event -> W -> Prop :=
| cycles_done w : cycles c w [] [] w
| cycles_poll w batches t w' :
    ctx_Done w = false ->
    cycles c (final (Pipeline.pollMessages S c w)) batches t w' ->
    cycles c w
      (value (Pipeline.pollMessages S c w) :: batches)
      (trace (Pipeline.pollMessages S c w) ++ t)%list w'.

End WithContext.
End Lifecycle.

(** ** Which bodies [json.Unmarshal] into [any] refuses

    [json.Unmarshal] first runs [checkValid], the byte-by-byte scanner of
    encoding/json, and returns its syntax error if there is one.  Decoding
    into an empty interface then fails in one way only: a number literal
    that [strconv.ParseFloat] reports out of range.  Both tests read the
    body alone and build no value. *)

Module jsonscan.

(** What the scanner is in the middle of, innermost first. *)
Inductive ParseState : Type :=
| parseObjectKey
| parseObjectValue
| parseArrayValue.

(** The step functions of scanner.go, as the states of the automaton. *)
Inductive Step : Type :=
| stateBeginValueOrEmpty
| stateBeginValue
| stateBeginStringOrEmpty
| stateBeginString
| stateEndValue
| stateEndTop
| stateInString
| stateInStringEsc
| stateInStringEscU
| stateInStringEscU1
| stateInStringEscU12
| stateInStringEscU123
| stateNeg
| state1
| state0
| stateDot
| stateDot0
| stateE
| stateESign
| stateE0
| stateT
| stateTr
| stateTru
| stateF
| stateFa
| stateFal
| stateFals
| stateN
| stateNu
| stateNul.

Record scanner : Type := {
  step : Step;
  parseState : list ParseState;
  endTop : bool
}.

Definition maxNestingDepth : Z := 10000.

Definition code (c : Ascii.ascii) : Z := Z.of_N (Ascii.N_of_ascii c).

Definition byte (c : Ascii.ascii) (k : Z) : bool := code c =? k.

Definition between (lo : Z) (c : Ascii.ascii) (hi : Z) : bool :=
  (lo <=? code c) && (code c <=? hi).

(** [' '], ['\t'], ['\r'], ['\n']. *)
Definition isSpace (c : Ascii.ascii) : bool :=
  byte c 32 || byte c 9 || byte c 13 || byte c 10.

Definition isDigit (c : Ascii.ascii) : bool := between 48 c 57.

Definition isHex (c : Ascii.ascii) : bool :=
  between 48 c 57 || between 97 c 102 || between 65 c 70.

Definition goto (st : Step) (s : scanner) : scanner :=
  {| step := st; parseState := parseState s; endTop := endTop s |}.

(** [reset]. *)
Definition reset : scanner :=
  {| step := stateBeginValue; parseState := []; endTop := false |}.

(** [pushParseState]; [None] is the error "exceeded max depth". *)
Definition pushParseState (s : scanner) (newParseState : ParseState)
  : option scanner :=
  let ps := newParseState :: parseState s in
  if Z.of_nat (length ps) <=? maxNestingDepth
  then Some {| step := step s; parseState := ps; endTop := endTop s |}
  else None.

(** [popParseState]. *)
Definition popParseState (s : scanner) : scanner :=
  match parseState s with
  | _ :: (_ :: _) as rest =>
      {| step := stateEndValue; parseState := rest; endTop := endTop s |}
  | _ => {| step := stateEndTop; parseState := []; endTop := true |}
  end.

(** Each function below is the Go function of the same name; [None] is
    [scanError]. *)
Definition doEndTop (s : scanner) (c : Ascii.ascii) : option scanner :=
  if isSpace c then Some s else None.

Definition doEndValue (s : scanner) (c : Ascii.ascii) : option scanner :=
  match parseState s with
  | [] =>
      doEndTop {| step := stateEndTop; parseState := []; endTop := true |} c
  | ps :: rest =>
      if isSpace c then Some (goto stateEndValue s)
      else
        match ps with
        | parseObjectKey =>
            if byte c 58
            then Some {| step := stateBeginValue;
                         parseState := parseObjectValue :: rest;
                         endTop := endTop s |}
            else None
        | parseObjectValue =>
            if byte c 44
            then Some {| step := stateBeginString;
                         parseState := parseObjectKey :: rest;
                         endTop := endTop s |}
            else if byte c 125 then Some (popParseState s)
            else None
        | parseArrayValue =>
            if byte c 44 then Some (goto stateBeginValue s)
            else if byte c 93 then Some (popParseState s)
            else None
        end
  end.

Definition doBeginValue (s : scanner) (c : Ascii.ascii) : option scanner :=
  if isSpace c then Some s
  else if byte c 123
  then pushParseState (goto stateBeginStringOrEmpty s) parseObjectKey
  else if byte c 91
  then pushParseState (goto stateBeginValueOrEmpty s) parseArrayValue
  else if byte c 34 then Some (goto stateInString s)
  else if byte c 45 then Some (goto stateNeg s)
  else if byte c 48 then Some (goto state0 s)
  else if byte c 116 then Some (goto stateT s)
  else if byte c 102 then Some (goto stateF s)
  else if byte c 110 then Some (goto stateN s)
  else if between 49 c 57 then Some (goto state1 s)
  else None.

Definition doBeginValueOrEmpty (s : scanner) (c : Ascii.ascii)
  : option scanner :=
  if isSpace c then Some s
  else if byte c 93 then doEndValue s c
  else doBeginValue s c.

Definition doBeginString (s : scanner) (c : Ascii.ascii) : option scanner :=
  if isSpace c then Some s
  else if byte c 34 then Some (goto stateInString s)
  else None.

Definition doBeginStringOrEmpty (s : scanner) (c : Ascii.ascii)
  : option scanner :=
  if isSpace c then Some s
  else if byte c 125
  then doEndValue
         {| step := step s;
            parseState := parseObjectValue :: tl (parseState s);
            endTop := endTop s |} c
  else doBeginString s c.

Definition doInString (s : scanner) (c : Ascii.ascii) : option scanner :=
  if byte c 34 then Some (goto stateEndValue s)
  else if byte c 92 then Some (goto stateInStringEsc s)
  else if code c <? 32 then None
  else Some s.

Definition doInStringEsc (s : scanner) (c : Ascii.ascii) : option scanner :=
  if byte c 98 || byte c 102 || byte c 110 || byte c 114 || byte c 116
     || byte c 92 || byte c 47 || byte c 34
  then Some (goto stateInString s)
  else if byte c 117 then Some (goto stateInStringEscU s)
  else None.

Definition doHex (next : Step) (s : scanner) (c : Ascii.ascii)
  : option scanner :=
  if isHex c then Some (goto next s) else None.

Definition doNeg (s : scanner) (c : Ascii.ascii) : option scanner :=
  if byte c 48 then Some (goto state0 s)
  else if between 49 c 57 then Some (goto state1 s)
  else None.

Definition do0 (s : scanner) (c : Ascii.ascii) : option scanner :=
  if byte c 46 then Some (goto stateDot s)
  else if byte c 101 || byte c 69 then Some (goto stateE s)
  else doEndValue s c.

Definition do1 (s : scanner) (c : Ascii.ascii) : option scanner :=
  if isDigit c then Some (goto state1 s) else do0 s c.

Definition doDot (s : scanner) (c : Ascii.ascii) : option scanner :=
  if isDigit c then Some (goto stateDot0 s) else None.

Definition doDot0 (s : scanner) (c : Ascii.ascii) : option scanner :=
  if isDigit c then Some s
  else if byte c 101 || byte c 69 then Some (goto stateE s)
  else doEndValue s c.

Definition doESign (s : scanner) (c : Ascii.ascii) : option scanner :=
  if isDigit c then Some (goto stateE0 s) else None.

Definition doE (s : scanner) (c : Ascii.ascii) : option scanner :=
  if byte c 43 || byte c 45 then Some (goto stateESign s) else doESign s c.

Definition doE0 (s : scanner) (c : Ascii.ascii) : option scanner :=
  if isDigit c then Some s else doEndValue s c.

(** The states inside [true], [false] and [null]. *)
Definition doLetter (k : Z) (next : Step) (s : scanner) (c : Ascii.ascii)
  : option scanner :=
  if byte c k then Some (goto next s) else None.

(** [s.step(s, c)]. *)
Definition transition (s : scanner) (c : Ascii.ascii) : option scanner :=
  match step s with
  | stateBeginValueOrEmpty => doBeginValueOrEmpty s c
  | stateBeginValue => doBeginValue s c
  | stateBeginStringOrEmpty => doBeginStringOrEmpty s c
  | stateBeginString => doBeginString s c
  | stateEndValue => doEndValue s c
  | stateEndTop => doEndTop s c
  | stateInString => doInString s c
  | stateInStringEsc => doInStringEsc s c
  | stateInStringEscU => doHex stateInStringEscU1 s c
  | stateInStringEscU1 => doHex stateInStringEscU12 s c
  | stateInStringEscU12 => doHex stateInStringEscU123 s c
  | stateInStringEscU123 => doHex stateInString s c
  | stateNeg => doNeg s c
  | state1 => do1 s c
  | state0 => do0 s c
  | stateDot => doDot s c
  | stateDot0 => doDot0 s c
  | stateE => doE s c
  | stateESign => doESign s c
  | stateE0 => doE0 s c
  | stateT => doLetter 114 stateTr s c
  | stateTr => doLetter 117 stateTru s c
  | stateTru => doLetter 101 stateEndValue s c
  | stateF => doLetter 97 stateFa s c
  | stateFa => doLetter 108 stateFal s c
  | stateFal => doLetter 115 stateFals s c
  | stateFals => doLetter 101 stateEndValue s c
  | stateN => doLetter 117 stateNu s c
  | stateNu => doLetter 108 stateNul s c
  | stateNul => doLetter 108 stateEndValue s c
  end.

(** The loop of [checkValid] over the bytes. *)
Fixpoint scan (s : scanner) (data : string) : option scanner :=
  match data with
  | EmptyString => Some s
  | String c rest =>
      match transition s c with
      | None => None
      | Some s' => scan s' rest
      end
  end.

(** [eof]: a value that ends with the input is closed by a space. *)
Definition eof (s : scanner) : bool :=
  if endTop s then true
  else
    match transition s (Ascii.ascii_of_nat 32) with
    | Some s' => endTop s'
    | None => false
    end.

(** [checkValid(data, scan) == nil]. *)
Definition Valid (data : string) : bool :=
  match scan reset data with
  | Some s => eof s
  | None => false
  end.

End jsonscan.

Module jsonnumber.

(** The least magnitude that rounds to infinity: half an ulp above the
    largest float64, [2^1024 - 2^970]. *)
Definition threshold : Z := 2 ^ 1024 - 2 ^ 970.

(** The decimal digits at the head of [s]: their value on top of
    [value], their number on top of [count], and what follows them. *)
Fixpoint digits (s : string) (value count : Z) : Z * Z * string :=
  match s with
  | String c rest =>
      if jsonscan.isDigit c
      then digits rest (10 * value + (jsonscan.code c - 48)) (count + 1)
      else (value, count, s)
  | EmptyString => (value, count, s)
  end.

(** Whether [strconv.ParseFloat(literal, 64)] reports a range error on a
    JSON number literal: the magnitude [m * 10^e10] rounds to infinity.
    The two tests on [e10] keep the power of ten small. *)
Definition overflows (literal : string) : bool :=
  let s :=
    match literal with
    | String c rest => if jsonscan.byte c 45 then rest else literal
    | EmptyString => literal
    end in
  let '(m1, n1, s1) := digits s 0 0 in
  let '(m, nfrac, s2) :=
    match s1 with
    | String c rest =>
        if jsonscan.byte c 46 then digits rest m1 0 else (m1, 0, s1)
    | EmptyString => (m1, 0, s1)
    end in
  let exponent :=
    match s2 with
    | String c rest =>
        if jsonscan.byte c 101 || jsonscan.byte c 69
        then
          match rest with
          | String sign rest' =>
              if jsonscan.byte sign 45 then - fst (fst (digits rest' 0 0))
              else if jsonscan.byte sign 43 then fst (fst (digits rest' 0 0))
              else fst (fst (digits rest 0 0))
          | EmptyString => 0
          end
        else 0
    | EmptyString => 0
    end in
  let e10 := exponent - nfrac in
  if m =? 0 then false
  else if 309 <=? e10 then true
  else if e10 + (n1 + nfrac) <=? 308 then false
  else if 0 <=? e10 then threshold <=? m * 10 ^ e10
  else threshold * 10 ^ (- e10) <=? m.

(** The number literals of a valid JSON text, in order: outside strings
    a literal starts at a minus sign or a digit and runs over digits,
    point, exponent mark and signs. *)
Fixpoint literals (data : string) (inString escaped : bool) (literal : string)
  : list string :=
  let flush := match literal with EmptyString => [] | _ => [literal] end in
  match data with
  | EmptyString => flush
  | String c rest =>
      if inString then
        if escaped then literals rest true false EmptyString
        else if jsonscan.byte c 92 then literals rest true true EmptyString
        else if jsonscan.byte c 34 then literals rest false false EmptyString
        else literals rest true false EmptyString
      else if jsonscan.byte c 34
      then (flush ++ literals rest true false EmptyString)%list
      else
        match literal with
        | EmptyString =>
            if jsonscan.byte c 45 || jsonscan.isDigit c
            then literals rest false false (String c EmptyString)
            else literals rest false false EmptyString
        | _ =>
            if jsonscan.isDigit c || jsonscan.byte c 46 || jsonscan.byte c 101
               || jsonscan.byte c 69 || jsonscan.byte c 43 || jsonscan.byte c 45
            then literals rest false false (literal ++ String c EmptyString)
            else (flush ++ literals rest false false EmptyString)%list
        end
  end.

(** Whether [json.Unmarshal(data, &v)], [v] an empty interface, returns
    an error. *)
Definition refused (data : string) : bool :=
  negb (jsonscan.Valid data)
  || existsb overflows (literals data false false EmptyString).

End jsonnumber.

(** ** More scripted runs *)

Module Scenario.

(** The registry cannot be reached. *)
Definition world_registry_down : Fake.World :=
  Fake.with_registry (Fail (SdkError "ProvisionedThroughputExceeded"))
    Fake.world0.

(** Positive infinity as a [float64], which [json.Marshal] refuses. *)
Definition infinity : any := JNumber 0x7FF0000000000000.

(** The shutdown signal arrives once something was deleted. *)
Definition cancelled_after_delete (w : Fake.World) : bool :=
  negb (Nat.eqb (length (Fake.deleted w)) 0).

(** A batch of three for the first consumer: an envelope, a bare order,
    and a message without receipt handle. *)
Definition sns_batch : list types.Message :=
  [ Fake.message (Some Fake.envelope_body) (Some "rh-1");
    Fake.message (Some Fake.order_body) (Some "rh-2");
    Fake.message (Some Fake.envelope_body) None ].

Definition world_sns_batch : Fake.World :=
  Fake.with_receive (Ok sns_batch) Fake.world0.

(** A decoder that refuses exactly the bodies the library refuses.  What
    a body decodes to is scripted: the bodies of the scenarios decode to
    their values, any other body to [nil]. *)
Definition Unmarshal_any (body : string) : option any :=
  if jsonnumber.refused body then None
  else
    Some match Fake.Unmarshal_any body with
         | Some v => v
         | None => JNull
         end.

Definition services : Services :=
  {| world := Fake.World;
     sqs_ReceiveMessage := Fake.ReceiveMessage;
     sqs_DeleteMessage := Fake.DeleteMessage;
     lambda_Invoke := Fake.Invoke;
     dynamodb_Scan := Fake.ScanTable;
     rand_Intn := Fake.Intn;
     rand_Intn_range :=
       fun n w Hn => Z.mod_pos_bound (hd 0 (Fake.draws w)) n Hn;
     time_Sleep := Fake.Sleep;
     json_Marshal := Fake.Marshal;
     json_Unmarshal_any := Unmarshal_any;
     json_Unmarshal_LambdaResponse := Fake.Unmarshal_LambdaResponse;
     json_Unmarshal_SNSWrapper := Fake.Unmarshal_SNSWrapper;
     json_Unmarshal_map := Fake.Unmarshal_map;
     attributevalue_UnmarshalMap := Fake.UnmarshalMap |}.

(** The first scenario with the random source about to draw [draw]. *)
Definition seeded (draw : Z) : Fake.World :=
  {| Fake.receive := Fake.receive Fake.world0;
     Fake.functions := Fake.functions Fake.world0;
     Fake.registry := Fake.registry Fake.world0;
     Fake.draws := [draw];
     Fake.deleted := [];
     Fake.slept := 0 |}.

(** C and B are registered: B is the only Healthy one. *)
Definition world_single : Fake.World :=
  Fake.with_registry (Ok [Fake.rowC; Fake.rowB]) Fake.world0.

(** Four equally likely states of the random source. *)
Definition seeds : list Fake.World := [seeded 0; seeded 1; seeded 2; seeded 3].

End Scenario.

(** * Properties *)

Local Open Scope list_scope.

(** ** Vocabulary for statements about a run *)

Definition is_delete (e : Event) : bool :=
  match e with EvDeleteMessage _ _ => true | _ => false end.

Definition is_invoke (e : Event) : bool :=
  match e with EvInvoke _ _ => true | _ => false end.

(** The calls the poll cycle itself makes, as opposed to those made for
    one message. *)
Definition is_poll_call (e : Event) : bool :=
  match e with
  | EvReceiveMessage _ _ _ _ | EvSleep _ => true
  | _ => false
  end.

(** No acknowledgement was sent during the run. *)
Definition unacknowledged (t : list Event) : Prop :=
  forall q h, ~ In (EvDeleteMessage q h) t.

(** What a Lambda call answers when it succeeds: no transport error and
    no function-error signal. *)
Definition answered (r : Res lambda.InvokeOutput) (payload : string) : Prop :=
  exists out,
    r = Ok out /\ lambda.FunctionError out = None
    /\ lambda.Payload out = payload.

(** The two ways a Lambda call fails, with the error [InvokeSync] makes
    of each. *)
Inductive failed : Res lambda.InvokeOutput -> Error -> Prop :=
| failed_transport err :
    failed (Fail err) (ErrInvokingLambda err)
| failed_function out functionError :
    lambda.FunctionError out = Some functionError ->
    failed (Ok out) (ErrLambdaFunction functionError (lambda.Payload out)).

Section Vocabulary.
Variable S : Services.
Let W : Type := world S.

(** The body cannot be decoded as direct JSON. *)
Definition undecodable (message : types.Message) : Prop :=
  types.Body message = None
  \/ exists body,
       types.Body message = Some body /\ json_Unmarshal_any S body = None.

(** The body cannot be decoded as an SNS envelope around a JSON object. *)
Definition undecodable_enveloped (message : types.Message) : Prop :=
  types.Body message = None
  \/ (exists body,
        types.Body message = Some body
        /\ json_Unmarshal_SNSWrapper S body = None)
  \/ (exists body snsWrapper,
        types.Body message = Some body
        /\ json_Unmarshal_SNSWrapper S body = Some snsWrapper
        /\ json_Unmarshal_map S (sns.Message snsWrapper) = None).

(** Messages handled one after the other: each starts in the world the
    previous one left, and the traces follow each other in list order. *)
Inductive sequential (c : Pipeline.SQSConsumer)
  : list types.Message -> W -> list Outcome -> list Event -> W -> Prop :=
| sequential_nil w : sequential c [] w [] [] w
| sequential_cons message rest w os t w' :
    sequential c rest (final (Pipeline.processMessage S c message w)) os t w' ->
    sequential c (message :: rest) w
      (value (Pipeline.processMessage S c message w) :: os)
      (trace (Pipeline.processMessage S c message w) ++ t) w'.

(** The descriptors the loop keeps, said without the loop. *)
Definition healthy_of (items : list Item) : list Lambda :=
  filter (fun l => String.eqb (Status_ l) Healthy)
    (flat_map (fun item =>
                 match attributevalue_UnmarshalMap S item with
                 | Some l => [l]
                 | None => []
                 end) items).

(** The calls [handleBusinessLogic] makes on [msg] from world [w], each
    started in the world the previous one left: the validator call, the
    registry scan, the selection among [lambdas] and the dispatch to [l]. *)
Definition gate (msg : any) (w : W) : Run W (Res string) :=
  Pipeline.InvokeSync S IntegrityLambda msg w.

(** The integrity gate lets [msg] through in world [w]: the validator
    call returns, its payload decodes, and the status code is 200. *)
Definition accepted (msg : any) (w : W) : Prop :=
  exists payload integrity,
    value (gate msg w) = Ok payload
    /\ json_Unmarshal_LambdaResponse S payload = Some integrity
    /\ StatusCode integrity = 200.

Definition scan (c : Pipeline.SQSConsumer) (msg : any) (w : W)
  : Run W (Res (list Item)) :=
  Pipeline.Scan S (Pipeline.dynamoDBClient c) (final (gate msg w)).

Definition pick (c : Pipeline.SQSConsumer) (msg : any) (w : W)
  (lambdas : list Lambda) : Run W Selection :=
  Pipeline.selectLambda S lambdas (final (scan c msg w)).

Definition dispatch (c : Pipeline.SQSConsumer) (msg : any) (w : W)
  (lambdas : list Lambda) (l : Lambda) : Run W (Res string) :=
  Pipeline.InvokeSync S (ARN l) msg (final (pick c msg w lambdas)).

(** The health filter leaves the non-empty candidate list [lambdas]. *)
Definition filtered (c : Pipeline.SQSConsumer) (msg : any) (w : W)
  (lambdas : list Lambda) : Prop :=
  exists items,
    value (scan c msg w) = Ok items
    /\ Pipeline.healthyLambdas S items [] = Ok lambdas
    /\ lambdas <> [].

(** The exits of [handleBusinessLogic], in source order, each with the
    result, the world and the trace it leaves. *)
Inductive exits (c : Pipeline.SQSConsumer) (msg : any) (w : W)
  : Run W HResult -> Prop :=
| exit_integrity_call err :
    value (gate msg w) = Fail err ->
    exits c msg w
      (mkRun (HErr (ErrCallingIntegrityLambda err))
             (final (gate msg w)) (trace (gate msg w)))
| exit_integrity_json payload :
    value (gate msg w) = Ok payload ->
    json_Unmarshal_LambdaResponse S payload = None ->
    exits c msg w
      (mkRun (HErr ErrUnmarshallingJson)
             (final (gate msg w)) (trace (gate msg w)))
| exit_signatures payload integrity :
    value (gate msg w) = Ok payload ->
    json_Unmarshal_LambdaResponse S payload = Some integrity ->
    StatusCode integrity <> 200 ->
    exits c msg w
      (mkRun (HErr (ErrNotMatchingSignatures integrity))
             (final (gate msg w)) (trace (gate msg w)))
| exit_scan err :
    accepted msg w ->
    value (scan c msg w) = Fail err ->
    exits c msg w
      (mkRun (HErr (ErrItemNotFound
                      (tableName (Pipeline.dynamoDBClient c)) err))
             (final (scan c msg w))
             (trace (gate msg w) ++ trace (scan c msg w)))
| exit_item items err :
    accepted msg w ->
    value (scan c msg w) = Ok items ->
    Pipeline.healthyLambdas S items [] = Fail err ->
    exits c msg w
      (mkRun (HErr err) (final (scan c msg w))
             (trace (gate msg w) ++ trace (scan c msg w)))
| exit_no_healthy items :
    accepted msg w ->
    value (scan c msg w) = Ok items ->
    Pipeline.healthyLambdas S items [] = Ok [] ->
    exits c msg w
      (mkRun (HErr ErrNoHealthyLambdas) (final (scan c msg w))
             (trace (gate msg w) ++ trace (scan c msg w)))
| exit_dispatch items lambdas l err :
    accepted msg w ->
    value (scan c msg w) = Ok items ->
    Pipeline.healthyLambdas S items [] = Ok lambdas ->
    value (pick c msg w lambdas) = Selected l ->
    value (dispatch c msg w lambdas l) = Fail err ->
    exits c msg w
      (mkRun (HErr (ErrInvokingSelectedLambda (ARN l) err))
             (final (dispatch c msg w lambdas l))
             (trace (gate msg w) ++ trace (scan c msg w)
              ++ trace (pick c msg w lambdas)
              ++ trace (dispatch c msg w lambdas l)))
| exit_nil items lambdas l response :
    accepted msg w ->
    value (scan c msg w) = Ok items ->
    Pipeline.healthyLambdas S items [] = Ok lambdas ->
    value (pick c msg w lambdas) = Selected l ->
    value (dispatch c msg w lambdas l) = Ok response ->
    exits c msg w
      (mkRun HNil
             (final (dispatch c msg w lambdas l))
             (trace (gate msg w) ++ trace (scan c msg w)
              ++ trace (pick c msg w lambdas)
              ++ trace (dispatch c msg w lambdas l))).

End Vocabulary.

(** ** Vocabulary for the whole attempt and the batch *)

Definition is_scan (e : Event) : bool :=
  match e with EvScan _ => true | _ => false end.

Definition is_draw (e : Event) : bool :=
  match e with EvIntn _ => true | _ => false end.

Definition is_sleep (e : Event) : bool :=
  match e with EvSleep _ => true | _ => false end.

Definition is_receive (e : Event) : bool :=
  match e with EvReceiveMessage _ _ _ _ => true | _ => false end.

(** The outcomes after which [processMessage] called [deleteMessage]. *)
Definition settled (o : Outcome) : bool :=
  match o with Dropped | Acknowledged => true | _ => false end.

(** The delete request [deleteMessage] sends for a message, if any. *)
Definition delete_request (queueURL : string) (message : types.Message)
  : list Event :=
  match types.ReceiptHandle message with
  | Some h => [EvDeleteMessage queueURL h]
  | None => []
  end.

(** The delete requests of a batch, given the outcome of each message. *)
Fixpoint delete_requests (queueURL : string) (messages : list types.Message)
  (os : list Outcome) : list Event :=
  match messages, os with
  | message :: messages', o :: os' =>
      (if settled o then delete_request queueURL message else [])
      ++ delete_requests queueURL messages' os'
  | _, _ => []
  end.

(** Equality of descriptors is decidable: six strings. *)
Definition Lambda_eq_dec (a b : Lambda) : {a = b} + {a <> b}.
Proof. decide equality; apply string_dec. Defined.

(** Randomness is an ensemble [ws] of equally likely states of the
    world.  [drawn_in n ws i] counts those in which [rand.Intn(n)] draws
    [i], [selected_in lambdas ws l] those in which the selection among
    [lambdas] takes [l]. *)
Definition drawn_in (S : Services) (n : Z) (ws : list (world S)) (i : Z)
  : nat :=
  length (filter (fun w => fst (rand_Intn S n w) =? i) ws).

Definition selects (S : Services) (lambdas : list Lambda) (l : Lambda)
  (w : world S) : bool :=
  match value (Pipeline.selectLambda S lambdas w) with
  | Selected l' => if Lambda_eq_dec l' l then true else false
  | _ => false
  end.

Definition selected_in (S : Services) (lambdas : list Lambda)
  (ws : list (world S)) (l : Lambda) : nat :=
  length (filter (selects S lambdas l) ws).

(** The calls of one attempt on a decoded message, up to the dispatch:
    a prefix of validator, scan, draw, worker, with the draw present
    only when there are [n >= 2] candidates. *)
Inductive stages (table : string) : list Event -> Prop :=
| stages_none : stages table []
| stages_gate p : stages table [EvInvoke IntegrityLambda p]
| stages_scan p : stages table [EvInvoke IntegrityLambda p; EvScan table]
| stages_single p arn :
    stages table [EvInvoke IntegrityLambda p; EvScan table; EvInvoke arn p]
| stages_drawn p n arn :
    2 <= n ->
    stages table
      [EvInvoke IntegrityLambda p; EvScan table; EvIntn n; EvInvoke arn p].

(** ** The Lambda client *)

Section PipelineFacts.
Variable S : Services.
Let W : Type := world S.

Lemma InvokeSync_marshal_error functionName msg w :
  json_Marshal S msg = None ->
  Pipeline.InvokeSync S functionName msg w
  = mkRun (Fail ErrMarshalingPayload) w [].
Proof.
  intros Hm. unfold Pipeline.InvokeSync. rewrite Hm. reflexivity.
Qed.

Lemma InvokeSync_answered functionName msg p w payload :
  json_Marshal S msg = Some p ->
  answered (fst (lambda_Invoke S functionName p w)) payload ->
  Pipeline.InvokeSync S functionName msg w
  = mkRun (Ok payload) (snd (lambda_Invoke S functionName p w))
          [EvInvoke functionName p].
Proof.
  intros Hm (out & Hr & Hfe & Hp).
  unfold Pipeline.InvokeSync, bind, call, ret. rewrite Hm. simpl.
  rewrite Hr. rewrite Hfe. simpl. rewrite Hp. reflexivity.
Qed.

Lemma InvokeSync_failed functionName msg p w err :
  json_Marshal S msg = Some p ->
  failed (fst (lambda_Invoke S functionName p w)) err ->
  Pipeline.InvokeSync S functionName msg w
  = mkRun (Fail err) (snd (lambda_Invoke S functionName p w))
          [EvInvoke functionName p].
Proof.
  intros Hm Hf.
  unfold Pipeline.InvokeSync, bind, call, ret. rewrite Hm. simpl.
  inversion Hf as [e He | out fe Hfe He]; subst; simpl.
  - reflexivity.
  - rewrite Hfe. reflexivity.
Qed.

(** Every Lambda call either answers or fails. *)
Lemma answered_or_failed (r : Res lambda.InvokeOutput) :
  (exists payload, answered r payload) \/ (exists err, failed r err).
Proof.
  destruct r as [out | err].
  - destruct (lambda.FunctionError out) as [fe |] eqn:Hfe.
    + right. eexists. apply failed_function. exact Hfe.
    + left. exists (lambda.Payload out), out. auto.
  - right. eexists. apply failed_transport.
Qed.

Lemma answered_not_failed r payload err :
  answered r payload -> failed r err -> False.
Proof.
  intros (out & Hr & Hfe & _) Hf.
  inversion Hf; subst; congruence.
Qed.

(** A successful [InvokeSync] marshalled the payload and got an answer. *)
Lemma InvokeSync_Ok_inv functionName msg w payload :
  value (Pipeline.InvokeSync S functionName msg w) = Ok payload ->
  exists p,
    json_Marshal S msg = Some p
    /\ answered (fst (lambda_Invoke S functionName p w)) payload.
Proof.
  intros Hv.
  destruct (json_Marshal S msg) as [p |] eqn:Hm.
  - exists p. split; [reflexivity |].
    destruct (answered_or_failed (fst (lambda_Invoke S functionName p w)))
      as [[payload' Ha] | [err Hf]].
    + rewrite (InvokeSync_answered _ _ _ _ _ Hm Ha) in Hv. simpl in Hv.
      inversion Hv; subst. exact Ha.
    + rewrite (InvokeSync_failed _ _ _ _ _ Hm Hf) in Hv. discriminate.
  - rewrite (InvokeSync_marshal_error _ _ _ Hm) in Hv. discriminate.
Qed.

(** The trace of [InvokeSync]: one call with the marshalled payload, or
    nothing when marshalling fails. *)
Lemma InvokeSync_trace functionName msg w :
  trace (Pipeline.InvokeSync S functionName msg w)
  = match json_Marshal S msg with
    | Some p => [EvInvoke functionName p]
    | None => []
    end.
Proof.
  destruct (json_Marshal S msg) as [p |] eqn:Hm.
  - destruct (answered_or_failed (fst (lambda_Invoke S functionName p w)))
      as [[payload Ha] | [err Hf]].
    + rewrite (InvokeSync_answered _ _ _ _ _ Hm Ha). reflexivity.
    + rewrite (InvokeSync_failed _ _ _ _ _ Hm Hf). reflexivity.
  - rewrite (InvokeSync_marshal_error _ _ _ Hm). reflexivity.
Qed.

(** ** The registry scan and the health filter *)

Lemma Scan_trace d w :
  trace (Pipeline.Scan S d w) = [EvScan (tableName d)].
Proof.
  unfold Pipeline.Scan, bind, call. simpl.
  destruct (fst (dynamodb_Scan S (tableName d) w)); reflexivity.
Qed.

Lemma Scan_Ok_inv d w items :
  value (Pipeline.Scan S d w) = Ok items ->
  fst (dynamodb_Scan S (tableName d) w) = Ok items.
Proof.
  unfold Pipeline.Scan, bind, call. simpl.
  destruct (fst (dynamodb_Scan S (tableName d) w)); simpl; congruence.
Qed.

Lemma healthyLambdas_Ok items : forall acc lambdas,
  Pipeline.healthyLambdas S items acc = Ok lambdas ->
  lambdas = (acc ++ healthy_of S items)%list
  /\ forall item, In item items -> attributevalue_UnmarshalMap S item <> None.
Proof.
  induction items as [| item rest IH]; intros acc lambdas H; simpl in H.
  - inversion H; subst. unfold healthy_of. simpl. rewrite app_nil_r.
    split; [reflexivity | intros ? []].
  - unfold healthy_of. simpl.
    destruct (attributevalue_UnmarshalMap S item) as [l |] eqn:Hu;
      [| discriminate].
    simpl. destruct (String.eqb (Status_ l) Healthy) eqn:Hs.
    + apply IH in H. destruct H as [-> Hall]. split.
      * rewrite <- app_assoc. reflexivity.
      * intros i [<- | Hi]; [congruence | auto].
    + apply IH in H. destruct H as [-> Hall]. split.
      * reflexivity.
      * intros i [<- | Hi]; [congruence | auto].
Qed.

Lemma healthyLambdas_Fail items : forall acc err,
  Pipeline.healthyLambdas S items acc = Fail err ->
  err = ErrFailedToUnmarshalItem
  /\ exists item, In item items /\ attributevalue_UnmarshalMap S item = None.
Proof.
  induction items as [| item rest IH]; intros acc err H; simpl in H.
  - discriminate.
  - destruct (attributevalue_UnmarshalMap S item) as [l |] eqn:Hu.
    + destruct (String.eqb (Status_ l) Healthy);
        apply IH in H; destruct H as [-> (i & Hi & Hn)];
        (split; [reflexivity | exists i; split; [right; exact Hi | exact Hn]]).
    + inversion H; subst. split; [reflexivity |].
      exists item. split; [left; reflexivity | exact Hu].
Qed.

Lemma healthyLambdas_malformed items : forall acc item,
  In item items -> attributevalue_UnmarshalMap S item = None ->
  Pipeline.healthyLambdas S items acc = Fail ErrFailedToUnmarshalItem.
Proof.
  intros acc item Hin Hn.
  destruct (Pipeline.healthyLambdas S items acc) as [lambdas | err] eqn:H.
  - apply healthyLambdas_Ok in H. destruct H as [_ Hall].
    exfalso. exact (Hall item Hin Hn).
  - apply healthyLambdas_Fail in H. destruct H as [-> _]. reflexivity.
Qed.

(** Every descriptor the filter keeps is flagged Healthy and decodes from
    a scanned row. *)
Lemma healthy_of_In items l :
  In l (healthy_of S items) ->
  Status_ l = Healthy
  /\ exists item, In item items /\ attributevalue_UnmarshalMap S item = Some l.
Proof.
  unfold healthy_of. intros H. apply filter_In in H. destruct H as [H Hs].
  apply String.eqb_eq in Hs. split; [exact Hs |].
  apply in_flat_map in H. destruct H as (item & Hi & Hl).
  exists item. split; [exact Hi |].
  destruct (attributevalue_UnmarshalMap S item) as [l' |]; simpl in Hl.
  - destruct Hl as [-> | []]. reflexivity.
  - destruct Hl.
Qed.

End PipelineFacts.

(** ** Selection *)

Section SelectionFacts.
Variable S : Services.
Let W : Type := world S.

Lemma selectLambda_none (w : W) :
  Pipeline.selectLambda S [] w = mkRun NoneHealthy w [].
Proof. reflexivity. Qed.

Lemma selectLambda_one (l : Lambda) (w : W) :
  Pipeline.selectLambda S [l] w = mkRun (Selected l) w [].
Proof. reflexivity. Qed.

Lemma index_in_range {A} (l : list A) (i : Z) :
  0 <= i < Z.of_nat (length l) ->
  exists a, index l i = Some a /\ In a l.
Proof.
  intros Hi. unfold index.
  destruct (i <? 0) eqn:Hneg; [apply Z.ltb_lt in Hneg; lia |].
  destruct (nth_error l (Z.to_nat i)) as [a |] eqn:Hn.
  - exists a. split; [reflexivity | eapply nth_error_In; exact Hn].
  - apply nth_error_None in Hn. lia.
Qed.

(** With two or more candidates the selected one is the element at the
    position [rand.Intn(len)] drew. *)
Lemma selectLambda_many (lambdas : list Lambda) (w : W) :
  (2 <= length lambdas)%nat ->
  let n := Z.of_nat (length lambdas) in
  exists l,
    index lambdas (fst (rand_Intn S n w)) = Some l
    /\ Pipeline.selectLambda S lambdas w
       = mkRun (Selected l) (snd (rand_Intn S n w)) [EvIntn n].
Proof.
  intros Hlen n.
  assert (Hr : 0 <= fst (rand_Intn S n w) < n)
    by (apply rand_Intn_range; subst n; lia).
  destruct (index_in_range lambdas _ Hr) as (l & Hl & _).
  exists l. split; [exact Hl |].
  destruct lambdas as [| a [| b rest]]; simpl in Hlen; try lia.
  change (Pipeline.selectLambda S (a :: b :: rest) w)
    with (bind (call (EvIntn n) (rand_Intn S n))
            (fun i => match index (a :: b :: rest) i with
                      | Some l => ret (Selected l)
                      | None => ret IndexOutOfRange
                      end) w).
  unfold bind, call. cbn [value final trace].
  rewrite Hl. reflexivity.
Qed.

Lemma selectLambda_cases (lambdas : list Lambda) (w : W) :
  (lambdas = [] /\ Pipeline.selectLambda S lambdas w = mkRun NoneHealthy w [])
  \/ (exists l, lambdas = [l]
        /\ Pipeline.selectLambda S lambdas w = mkRun (Selected l) w [])
  \/ ((2 <= length lambdas)%nat
      /\ exists l,
           index lambdas (fst (rand_Intn S (Z.of_nat (length lambdas)) w))
           = Some l
           /\ In l lambdas
           /\ Pipeline.selectLambda S lambdas w
              = mkRun (Selected l)
                  (snd (rand_Intn S (Z.of_nat (length lambdas)) w))
                  [EvIntn (Z.of_nat (length lambdas))]).
Proof.
  destruct lambdas as [| a [| b rest]].
  - left. split; reflexivity.
  - right; left. exists a. split; reflexivity.
  - right; right.
    assert (Hlen : (2 <= length (a :: b :: rest))%nat) by (simpl; lia).
    split; [exact Hlen |].
    destruct (selectLambda_many _ w Hlen) as (l & Hl & Hrun).
    exists l. split; [exact Hl |]. split; [| exact Hrun].
    unfold index in Hl.
    destruct (_ <? 0); [discriminate |].
    eapply nth_error_In; exact Hl.
Qed.

Lemma selectLambda_Selected_In (lambdas : list Lambda) (w : W) (l : Lambda) :
  value (Pipeline.selectLambda S lambdas w) = Selected l -> In l lambdas.
Proof.
  destruct (selectLambda_cases lambdas w)
    as [[-> Hr] | [(l' & -> & Hr) | (_ & l' & _ & Hin & Hr)]];
    rewrite Hr; simpl; intros H; inversion H; subst; auto.
Qed.

(** The index expression never goes out of range. *)
Lemma selectLambda_no_panic (lambdas : list Lambda) (w : W) :
  value (Pipeline.selectLambda S lambdas w) <> IndexOutOfRange.
Proof.
  destruct (selectLambda_cases lambdas w)
    as [[-> Hr] | [(l' & -> & Hr) | (_ & l' & _ & Hin & Hr)]];
    rewrite Hr; simpl; discriminate.
Qed.

Lemma selectLambda_NoneHealthy (lambdas : list Lambda) (w : W) :
  value (Pipeline.selectLambda S lambdas w) = NoneHealthy -> lambdas = [].
Proof.
  destruct (selectLambda_cases lambdas w)
    as [[-> Hr] | [(l' & -> & Hr) | (_ & l' & _ & Hin & Hr)]];
    rewrite Hr; simpl; intros H; try discriminate. reflexivity.
Qed.

(** Selection calls no service: its trace holds at most the draw. *)
Lemma selectLambda_trace (lambdas : list Lambda) (w : W) :
  trace (Pipeline.selectLambda S lambdas w)
  = if (2 <=? length lambdas)%nat
    then [EvIntn (Z.of_nat (length lambdas))] else [].
Proof.
  destruct (selectLambda_cases lambdas w)
    as [[-> Hr] | [(l' & -> & Hr) | (Hlen & l' & _ & Hin & Hr)]];
    rewrite Hr; simpl; try reflexivity.
  destruct lambdas as [| a [| b rest]]; simpl in Hlen; try lia. reflexivity.
Qed.

End SelectionFacts.

(** ** The business logic, exit by exit *)

Section BusinessLogicFacts.
Variable S : Services.
Let W : Type := world S.

Lemma handleBusinessLogic_exits (c : Pipeline.SQSConsumer) (msg : any) (w : W) :
  exits S c msg w (Pipeline.handleBusinessLogic S c msg w).
Proof.
  unfold Pipeline.handleBusinessLogic, bind.
  change (Pipeline.InvokeSync S IntegrityLambda msg w) with (gate S msg w).
  destruct (value (gate S msg w)) as [payload | err] eqn:Hg.
  2:{ cbn [ret value final trace]. rewrite app_nil_r.
      apply exit_integrity_call. exact Hg. }
  destruct (json_Unmarshal_LambdaResponse S payload) as [integrity |] eqn:Hj.
  2:{ cbn [ret value final trace]. rewrite app_nil_r.
      eapply exit_integrity_json; eassumption. }
  destruct (StatusCode integrity =? 200) eqn:Hc; cbn [negb].
  2:{ cbn [ret value final trace]. rewrite app_nil_r.
      apply Z.eqb_neq in Hc. eapply exit_signatures; eassumption. }
  apply Z.eqb_eq in Hc.
  assert (Hacc : accepted S msg w) by (exists payload, integrity; auto).
  change (Pipeline.Scan S (Pipeline.dynamoDBClient c) (final (gate S msg w)))
    with (scan S c msg w).
  destruct (value (scan S c msg w)) as [items | err] eqn:Hs.
  2:{ cbn [ret value final trace]. rewrite app_nil_r.
      apply exit_scan; assumption. }
  destruct (Pipeline.healthyLambdas S items []) as [lambdas | err] eqn:Hh.
  2:{ cbn [ret value final trace]. rewrite app_nil_r.
      eapply exit_item; eassumption. }
  change (Pipeline.selectLambda S lambdas (final (scan S c msg w)))
    with (pick S c msg w lambdas).
  destruct (value (pick S c msg w lambdas)) as [| l |] eqn:Hp.
  - assert (lambdas = []) by (eapply selectLambda_NoneHealthy; exact Hp).
    subst lambdas. cbn [ret value final trace pick]. simpl.
    rewrite app_nil_r.
    eapply exit_no_healthy; eassumption.
  - change (Pipeline.InvokeSync S (ARN l) msg (final (pick S c msg w lambdas)))
      with (dispatch S c msg w lambdas l).
    destruct (value (dispatch S c msg w lambdas l)) as [response | err] eqn:Hd;
      cbn [ret value final trace]; rewrite app_nil_r.
    + eapply exit_nil; eassumption.
    + eapply exit_dispatch; eassumption.
  - exfalso. exact (selectLambda_no_panic S lambdas _ Hp).
Qed.

(** The business logic never panics. *)
Lemma handleBusinessLogic_no_panic (c : Pipeline.SQSConsumer) (msg : any)
  (w : W) :
  value (Pipeline.handleBusinessLogic S c msg w) <> HPanic.
Proof.
  destruct (handleBusinessLogic_exits c msg w); simpl; discriminate.
Qed.

(** Up to its last exit the business logic acknowledges nothing. *)
Lemma handleBusinessLogic_unacknowledged (c : Pipeline.SQSConsumer)
  (msg : any) (w : W) :
  unacknowledged (trace (Pipeline.handleBusinessLogic S c msg w)).
Proof.
  assert (Hg : forall fn v w', forall q h,
             ~ In (EvDeleteMessage q h) (trace (Pipeline.InvokeSync S fn v w'))).
  { intros fn v w' q h. rewrite InvokeSync_trace.
    destruct (json_Marshal S v); simpl; intuition discriminate. }
  assert (Hs : forall d w', forall q h,
             ~ In (EvDeleteMessage q h) (trace (Pipeline.Scan S d w'))).
  { intros d w' q h. rewrite Scan_trace. simpl. intuition discriminate. }
  assert (Hp : forall ls w', forall q h,
             ~ In (EvDeleteMessage q h) (trace (Pipeline.selectLambda S ls w'))).
  { intros ls w' q h. rewrite selectLambda_trace.
    destruct (2 <=? length ls)%nat; simpl; intuition discriminate. }
  intros q h Hin.
  destruct (handleBusinessLogic_exits c msg w); cbn [trace] in Hin;
    unfold gate, scan, pick, dispatch in Hin;
    repeat match type of Hin with
           | In _ (_ ++ _) => apply in_app_or in Hin; destruct Hin as [Hin | Hin]
           end;
    first [ eapply Hg; exact Hin | eapply Hs; exact Hin | eapply Hp; exact Hin ].
Qed.

End BusinessLogicFacts.

(** ** One message *)

Section MessageFacts.
Variable S : Services.
Let W : Type := world S.

Lemma deleteMessage_trace (c : Pipeline.SQSConsumer) (message : types.Message)
  (w : W) :
  trace (Pipeline.deleteMessage S c message w)
  = match types.ReceiptHandle message with
    | Some receiptHandle =>
        [EvDeleteMessage (Pipeline.queueURL c) receiptHandle]
    | None => []
    end.
Proof.
  unfold Pipeline.deleteMessage.
  destruct (types.ReceiptHandle message); reflexivity.
Qed.

Lemma processMessage_undecodable (c : Pipeline.SQSConsumer)
  (message : types.Message) (w : W) :
  undecodable S message ->
  Pipeline.processMessage S c message w
  = mkRun Dropped (final (Pipeline.deleteMessage S c message w))
          (trace (Pipeline.deleteMessage S c message w)).
Proof.
  intros [Hb | (body & Hb & Hj)]; unfold Pipeline.processMessage;
    rewrite Hb; [| rewrite Hj]; unfold bind; cbn [ret value final trace];
    rewrite app_nil_r; reflexivity.
Qed.

(** A decoded message goes through the business logic, and the exit of
    the business logic decides between deferring and acknowledging. *)
Lemma processMessage_decoded (c : Pipeline.SQSConsumer)
  (message : types.Message) (body : string) (msg : any) (w : W) :
  types.Body message = Some body ->
  json_Unmarshal_any S body = Some msg ->
  Pipeline.processMessage S c message w
  = let h := Pipeline.handleBusinessLogic S c msg w in
    match value h with
    | HNil =>
        mkRun Acknowledged
          (final (Pipeline.deleteMessage S c message (final h)))
          (trace h ++ trace (Pipeline.deleteMessage S c message (final h)))
    | HErr err => mkRun (Deferred err) (final h) (trace h)
    | HPanic => mkRun Panicked (final h) (trace h)
    end.
Proof.
  intros Hb Hj. unfold Pipeline.processMessage. rewrite Hb, Hj.
  unfold bind. cbn zeta.
  destruct (value (Pipeline.handleBusinessLogic S c msg w));
    cbn [ret value final trace]; rewrite ?app_nil_r; reflexivity.
Qed.

(** A message whose business logic returns an error is deferred with that
    error and nothing is acknowledged. *)
Lemma processMessage_deferred (c : Pipeline.SQSConsumer)
  (message : types.Message) (body : string) (msg : any) (w : W) (err : Error) :
  types.Body message = Some body ->
  json_Unmarshal_any S body = Some msg ->
  value (Pipeline.handleBusinessLogic S c msg w) = HErr err ->
  Pipeline.processMessage S c message w
  = mkRun (Deferred err) (final (Pipeline.handleBusinessLogic S c msg w))
          (trace (Pipeline.handleBusinessLogic S c msg w))
  /\ unacknowledged (trace (Pipeline.processMessage S c message w)).
Proof.
  intros Hb Hj Hh.
  rewrite (processMessage_decoded c message body msg w Hb Hj).
  cbn zeta. rewrite Hh. split; [reflexivity |].
  cbn [trace]. apply handleBusinessLogic_unacknowledged.
Qed.

Lemma processMessage_no_panic (c : Pipeline.SQSConsumer)
  (message : types.Message) (w : W) :
  value (Pipeline.processMessage S c message w) <> Panicked.
Proof.
  destruct (types.Body message) as [body |] eqn:Hb.
  - destruct (json_Unmarshal_any S body) as [msg |] eqn:Hj.
    + rewrite (processMessage_decoded c message body msg w Hb Hj).
      cbn zeta.
      destruct (value (Pipeline.handleBusinessLogic S c msg w)) eqn:Hh;
        cbn [value]; try discriminate.
      exfalso. exact (handleBusinessLogic_no_panic S c msg w Hh).
    + rewrite processMessage_undecodable; [discriminate |].
      right. exists body. auto.
  - rewrite processMessage_undecodable; [discriminate |].
    left. exact Hb.
Qed.

(** An accepted message left exactly one validator call in the trace. *)
Lemma accepted_gate (msg : any) (w : W) :
  accepted S msg w ->
  exists p,
    json_Marshal S msg = Some p
    /\ trace (gate S msg w) = [EvInvoke IntegrityLambda p].
Proof.
  intros (payload & integrity & Hv & _ & _).
  apply InvokeSync_Ok_inv in Hv. destruct Hv as (p & Hm & _).
  exists p. split; [exact Hm |].
  unfold gate. rewrite InvokeSync_trace, Hm. reflexivity.
Qed.

(** A rejected message stops at the gate. *)
Lemma rejected_exit (c : Pipeline.SQSConsumer) (msg : any) (w : W) :
  ~ accepted S msg w ->
  exists err,
    Pipeline.handleBusinessLogic S c msg w
    = mkRun (HErr err) (final (gate S msg w)) (trace (gate S msg w)).
Proof.
  intros Hrej.
  destruct (handleBusinessLogic_exits S c msg w);
    try (exfalso; apply Hrej; assumption); eexists; reflexivity.
Qed.

End MessageFacts.

(** ** Acknowledgement *)

Section AcknowledgeFacts.
Variable S : Services.
Let W : Type := world S.

(** [return nil] is reached only through all three stages. *)
Lemma handleBusinessLogic_nil_inv (c : Pipeline.SQSConsumer) (msg : any)
  (w : W) :
  value (Pipeline.handleBusinessLogic S c msg w) = HNil ->
  exists items lambdas l response,
    accepted S msg w
    /\ value (scan S c msg w) = Ok items
    /\ Pipeline.healthyLambdas S items [] = Ok lambdas
    /\ value (pick S c msg w lambdas) = Selected l
    /\ value (dispatch S c msg w lambdas l) = Ok response
    /\ trace (Pipeline.handleBusinessLogic S c msg w)
       = trace (gate S msg w) ++ trace (scan S c msg w)
         ++ trace (pick S c msg w lambdas)
         ++ trace (dispatch S c msg w lambdas l).
Proof.
  destruct (handleBusinessLogic_exits S c msg w); cbn [value trace];
    intros Hv; try discriminate.
  exists items, lambdas, l, response. auto 10.
Qed.

Lemma processMessage_not_nil (c : Pipeline.SQSConsumer)
  (message : types.Message) (body : string) (msg : any) (w : W) :
  types.Body message = Some body ->
  json_Unmarshal_any S body = Some msg ->
  value (Pipeline.handleBusinessLogic S c msg w) <> HNil ->
  unacknowledged (trace (Pipeline.processMessage S c message w))
  /\ exists err, value (Pipeline.processMessage S c message w) = Deferred err.
Proof.
  intros Hb Hj Hn.
  destruct (value (Pipeline.handleBusinessLogic S c msg w)) as [| err |] eqn:Hh.
  - congruence.
  - destruct (processMessage_deferred S c message body msg w err Hb Hj Hh)
      as [Hr Hu].
    split; [exact Hu |]. exists err. rewrite Hr. reflexivity.
  - exfalso. exact (handleBusinessLogic_no_panic S c msg w Hh).
Qed.

(** The selected descriptor comes from a non-empty filtered list. *)
Lemma pick_filtered (c : Pipeline.SQSConsumer) (msg : any) (w : W)
  (items : list Item) (lambdas : list Lambda) (l : Lambda) :
  value (scan S c msg w) = Ok items ->
  Pipeline.healthyLambdas S items [] = Ok lambdas ->
  value (pick S c msg w lambdas) = Selected l ->
  filtered S c msg w lambdas.
Proof.
  intros Hs Hh Hp. exists items. split; [exact Hs |]. split; [exact Hh |].
  apply selectLambda_Selected_In in Hp. intros ->. destruct Hp.
Qed.

(** The filtered list is a function of the run. *)
Lemma filtered_unique (c : Pipeline.SQSConsumer) (msg : any) (w : W)
  (l1 l2 : list Lambda) :
  filtered S c msg w l1 -> filtered S c msg w l2 -> l1 = l2.
Proof.
  intros (i1 & Hs1 & Hh1 & _) (i2 & Hs2 & Hh2 & _). congruence.
Qed.

End AcknowledgeFacts.

(** ** From the business logic to the message *)

Section TraceFacts.
Variable S : Services.
Let W : Type := world S.

(** The enveloped consumer drops what it cannot decode. *)
Lemma sns_processMessage_undecodable (c : SNSVariant.SQSConsumer)
  (message : types.Message) (w : W) :
  undecodable_enveloped S message ->
  SNSVariant.processMessage S c message w
  = mkRun Dropped (final (SNSVariant.deleteMessage S c message w))
          (trace (SNSVariant.deleteMessage S c message w)).
Proof.
  intros [Hb | [(body & Hb & Hj) | (body & snsWrapper & Hb & Hj & Hm)]];
    unfold SNSVariant.processMessage;
    rewrite Hb; [| rewrite Hj | rewrite Hj, Hm];
    unfold bind; cbn [ret value final trace];
    rewrite app_nil_r; reflexivity.
Qed.

Lemma sns_deleteMessage_trace (c : SNSVariant.SQSConsumer)
  (message : types.Message) (w : W) :
  trace (SNSVariant.deleteMessage S c message w)
  = match types.ReceiptHandle message with
    | Some receiptHandle =>
        [EvDeleteMessage (SNSVariant.queueURL c) receiptHandle]
    | None => []
    end.
Proof.
  unfold SNSVariant.deleteMessage.
  destruct (types.ReceiptHandle message); reflexivity.
Qed.

(** The trace of a decoded message is the trace of its business logic,
    followed by the delete request if there is one. *)
Lemma processMessage_trace (c : Pipeline.SQSConsumer)
  (message : types.Message) (body : string) (msg : any) (w : W) :
  types.Body message = Some body ->
  json_Unmarshal_any S body = Some msg ->
  exists t,
    trace (Pipeline.processMessage S c message w)
    = trace (Pipeline.handleBusinessLogic S c msg w) ++ t
    /\ forall e, In e t -> is_delete e = true.
Proof.
  intros Hb Hj.
  rewrite (processMessage_decoded S c message body msg w Hb Hj). cbn zeta.
  destruct (value (Pipeline.handleBusinessLogic S c msg w)); cbn [trace].
  - eexists. split; [reflexivity |].
    intros e He. rewrite deleteMessage_trace in He.
    destruct (types.ReceiptHandle message); simpl in He;
      [destruct He as [<- | []]; reflexivity | destruct He].
  - exists []. rewrite app_nil_r. split; [reflexivity | intros e []].
  - exists []. rewrite app_nil_r. split; [reflexivity | intros e []].
Qed.

(** Past the gate the next call is the registry scan. *)
Lemma accepted_scanned (c : Pipeline.SQSConsumer) (msg : any) (w : W) :
  accepted S msg w ->
  exists t,
    trace (Pipeline.handleBusinessLogic S c msg w)
    = trace (gate S msg w)
      ++ EvScan (tableName (Pipeline.dynamoDBClient c)) :: t.
Proof.
  intros (payload & integrity & Hv & Hj & Hc).
  destruct (handleBusinessLogic_exits S c msg w); cbn [trace];
    try (exfalso; congruence);
    unfold scan; rewrite Scan_trace; cbn [app];
    eexists; reflexivity.
Qed.

(** The registry is scanned only past the gate. *)
Lemma scanned_accepted (c : Pipeline.SQSConsumer) (msg : any) (w : W)
  (table : string) :
  In (EvScan table) (trace (Pipeline.handleBusinessLogic S c msg w)) ->
  accepted S msg w.
Proof.
  destruct (handleBusinessLogic_exits S c msg w); cbn [trace];
    intros Hin; try assumption; exfalso;
    unfold gate in Hin; rewrite InvokeSync_trace in Hin;
    destruct (json_Marshal S msg); simpl in Hin;
    intuition discriminate.
Qed.

End TraceFacts.

(** ** Exits by cause *)

Section ExitFacts.
Variable S : Services.
Let W : Type := world S.

(** Closes the exits that contradict what is known of the run. *)
Ltac wrong_exit :=
  solve [ exfalso; congruence
        | exfalso;
          match goal with
          | Ha : accepted _ _ _ |- _ =>
              destruct Ha as (? & ? & ? & ? & ?); congruence
          end
        | exfalso;
          match goal with
          | Hf : filtered _ _ _ _ _ |- _ =>
              destruct Hf as (? & ? & ? & ?); congruence
          end ].

(** A row that does not decode aborts the filter. *)
Lemma item_exit (c : Pipeline.SQSConsumer) (msg : any) (w : W)
  (items : list Item) (err : Error) :
  accepted S msg w ->
  value (scan S c msg w) = Ok items ->
  Pipeline.healthyLambdas S items [] = Fail err ->
  Pipeline.handleBusinessLogic S c msg w
  = mkRun (HErr err) (final (scan S c msg w))
          (trace (gate S msg w) ++ trace (scan S c msg w)).
Proof.
  intros Hacc Hs Hh.
  destruct (handleBusinessLogic_exits S c msg w); try wrong_exit.
  replace err0 with err by congruence. reflexivity.
Qed.

(** With a candidate selected, the exit is decided by the dispatch. *)
Lemma dispatch_exit (c : Pipeline.SQSConsumer) (msg : any) (w : W)
  (lambdas : list Lambda) (l : Lambda) :
  accepted S msg w ->
  filtered S c msg w lambdas ->
  value (pick S c msg w lambdas) = Selected l ->
  Pipeline.handleBusinessLogic S c msg w
  = mkRun
      (match value (dispatch S c msg w lambdas l) with
       | Ok _ => HNil
       | Fail err => HErr (ErrInvokingSelectedLambda (ARN l) err)
       end)
      (final (dispatch S c msg w lambdas l))
      (trace (gate S msg w) ++ trace (scan S c msg w)
       ++ trace (pick S c msg w lambdas)
       ++ trace (dispatch S c msg w lambdas l)).
Proof.
  intros Hacc Hfil Hp.
  destruct (handleBusinessLogic_exits S c msg w) as
    [ e Hv | pl Hv Hn | pl i Hv Hn Hc | e _ Hs' | its e _ Hs' Hh
    | its _ Hs' Hh | its ls l' e _ Hs' Hh Hp' Hd | its ls l' rs _ Hs' Hh Hp' Hd ];
    try wrong_exit.
  - assert (ls = lambdas).
    { destruct Hfil as (items & Hs & Hh' & _). congruence. }
    subst ls. assert (l' = l) by congruence. subst l'.
    rewrite Hd. reflexivity.
  - assert (ls = lambdas).
    { destruct Hfil as (items & Hs & Hh' & _). congruence. }
    subst ls. assert (l' = l) by congruence. subst l'.
    rewrite Hd. reflexivity.
Qed.

(** The business logic calls the Lambda service, the registry and the
    random source, and nothing else. *)
Lemma handleBusinessLogic_calls (c : Pipeline.SQSConsumer) (msg : any) (w : W)
  (e : Event) :
  In e (trace (Pipeline.handleBusinessLogic S c msg w)) ->
  is_poll_call e = false.
Proof.
  assert (Hg : forall fn v w',
             In e (trace (Pipeline.InvokeSync S fn v w')) ->
             is_poll_call e = false).
  { intros fn v w'. rewrite InvokeSync_trace.
    destruct (json_Marshal S v); simpl; intros H;
      intuition (subst; reflexivity). }
  assert (Hs : forall d w',
             In e (trace (Pipeline.Scan S d w')) -> is_poll_call e = false).
  { intros d w'. rewrite Scan_trace. simpl. intros [<- | []]; reflexivity. }
  assert (Hp : forall ls w',
             In e (trace (Pipeline.selectLambda S ls w')) ->
             is_poll_call e = false).
  { intros ls w'. rewrite selectLambda_trace.
    destruct (2 <=? length ls)%nat; simpl; intros H;
      intuition (subst; reflexivity). }
  intros Hin.
  destruct (handleBusinessLogic_exits S c msg w); cbn [trace] in Hin;
    unfold gate, scan, pick, dispatch in Hin;
    repeat match type of Hin with
           | In _ (_ ++ _) => apply in_app_or in Hin; destruct Hin as [Hin | Hin]
           end;
    first [ eapply Hg; exact Hin | eapply Hs; exact Hin | eapply Hp; exact Hin ].
Qed.

Lemma processMessage_calls (c : Pipeline.SQSConsumer)
  (message : types.Message) (w : W) (e : Event) :
  In e (trace (Pipeline.processMessage S c message w)) ->
  is_poll_call e = false.
Proof.
  assert (Hd : forall e', is_delete e' = true -> is_poll_call e' = false)
    by (intros []; simpl; congruence).
  destruct (types.Body message) as [body |] eqn:Hb.
  - destruct (json_Unmarshal_any S body) as [msg |] eqn:Hj.
    + destruct (processMessage_trace S c message body msg w Hb Hj)
        as (t & -> & Ht).
      intros Hin. apply in_app_or in Hin. destruct Hin as [Hin | Hin].
      * eapply handleBusinessLogic_calls. exact Hin.
      * auto.
    + rewrite processMessage_undecodable by (right; exists body; auto).
      cbn [trace]. rewrite deleteMessage_trace.
      destruct (types.ReceiptHandle message); simpl; intros H;
        intuition (subst; reflexivity).
  - rewrite processMessage_undecodable by (left; exact Hb).
    cbn [trace]. rewrite deleteMessage_trace.
    destruct (types.ReceiptHandle message); simpl; intros H;
      intuition (subst; reflexivity).
Qed.

(** ** The batch *)

Lemma processMessages_cons (c : Pipeline.SQSConsumer)
  (message : types.Message) (rest : list types.Message) (w : W) :
  Pipeline.processMessages S c (message :: rest) w
  = let r := Pipeline.processMessage S c message w in
    let rs := Pipeline.processMessages S c rest (final r) in
    mkRun (value r :: value rs) (final rs) (trace r ++ trace rs).
Proof.
  pose proof (processMessage_no_panic S c message w) as Hnp.
  cbn [Pipeline.processMessages]. unfold bind. cbn beta zeta.
  destruct (value (Pipeline.processMessage S c message w)) eqn:Ho;
    try congruence;
    cbn [ret value final trace]; rewrite app_nil_r; reflexivity.
Qed.

Lemma processMessages_sequential (c : Pipeline.SQSConsumer)
  (messages : list types.Message) : forall w : W,
  sequential S c messages w
    (value (Pipeline.processMessages S c messages w))
    (trace (Pipeline.processMessages S c messages w))
    (final (Pipeline.processMessages S c messages w)).
Proof.
  induction messages as [| message rest IH]; intros w.
  - apply sequential_nil.
  - rewrite processMessages_cons. cbn zeta. cbn [value final trace].
    apply sequential_cons. apply IH.
Qed.

Lemma sequential_length (c : Pipeline.SQSConsumer)
  (messages : list types.Message) (w w' : W) (os : list Outcome)
  (t : list Event) :
  sequential S c messages w os t w' -> length os = length messages.
Proof.
  induction 1; simpl; congruence.
Qed.

Lemma processMessages_calls (c : Pipeline.SQSConsumer)
  (messages : list types.Message) (w w' : W) (os : list Outcome)
  (t : list Event) :
  sequential S c messages w os t w' ->
  forall e, In e t -> is_poll_call e = false.
Proof.
  induction 1 as [| message rest w os t w' _ IH]; intros e Hin.
  - destruct Hin.
  - apply in_app_or in Hin. destruct Hin as [Hin | Hin].
    + eapply processMessage_calls. exact Hin.
    + auto.
Qed.

End ExitFacts.

(** ** Counting over an ensemble of worlds *)

Section CountingFacts.
Variables (V A : Type).
Variable f : V -> Z.

Lemma index_nil (z : Z) : @index A [] z = None.
Proof.
  unfold index. destruct (z <? 0); [reflexivity |].
  destruct (Z.to_nat z); reflexivity.
Qed.

(** Indexing a slice with one more element at its end. *)
Lemma index_snoc (L : list A) (a : A) (z : Z) :
  index (L ++ [a]) z
  = if z =? Z.of_nat (length L) then Some a else index L z.
Proof.
  unfold index. destruct (z <? 0) eqn:Hneg.
  - apply Z.ltb_lt in Hneg.
    destruct (z =? Z.of_nat (length L)) eqn:He; [| reflexivity].
    apply Z.eqb_eq in He. lia.
  - apply Z.ltb_ge in Hneg.
    destruct (z =? Z.of_nat (length L)) eqn:He.
    + apply Z.eqb_eq in He.
      replace (Z.to_nat z) with (length L) by lia.
      rewrite nth_error_app2 by lia. rewrite Nat.sub_diag. reflexivity.
    + apply Z.eqb_neq in He.
      destruct (Nat.lt_ge_cases (Z.to_nat z) (length L)) as [Hlt | Hge].
      * apply nth_error_app1. exact Hlt.
      * replace (nth_error L (Z.to_nat z)) with (@None A)
          by (symmetry; apply nth_error_None; exact Hge).
        apply nth_error_None. rewrite length_app. simpl. lia.
Qed.

Lemma filter_false (ws : list V) :
  filter (fun _ : V => false) ws = [].
Proof. induction ws; simpl; auto. Qed.

Lemma filter_true (p : V -> bool) (ws : list V) :
  (forall w, p w = true) -> filter p ws = ws.
Proof.
  intros Hp. induction ws as [| w ws IH]; simpl; [reflexivity |].
  rewrite Hp, IH. reflexivity.
Qed.

(** Counting a predicate that is overridden where [f] takes the value
    [k]. *)
Lemma count_override (k : Z) (b : bool) (p : V -> bool) (ws : list V) :
  (forall w, f w = k -> p w = false) ->
  length (filter (fun w => if f w =? k then b else p w) ws)
  = (length (filter p ws)
     + (if b then length (filter (fun w => (f w =? k)%Z) ws) else 0))%nat.
Proof.
  intros Hp. induction ws as [| w ws IH]; simpl.
  - destruct b; reflexivity.
  - destruct (f w =? k) eqn:He.
    + apply Z.eqb_eq in He. rewrite (Hp w He).
      destruct b; simpl; rewrite IH; lia.
    + destruct (p w); simpl; rewrite IH; lia.
Qed.

(** When every position of [L] is drawn in [m] worlds, the worlds whose
    draw lands on an element satisfying [g] number [m] for each such
    element. *)
Lemma count_by_position (g : A -> bool) (ws : list V) (m : nat)
  (L : list A) :
  (forall i, 0 <= i < Z.of_nat (length L) ->
             length (filter (fun w => f w =? i) ws) = m) ->
  length (filter (fun w => match index L (f w) with
                           | Some x => g x
                           | None => false
                           end) ws)
  = (length (filter g L) * m)%nat.
Proof.
  induction L as [| a L IH] using rev_ind; intros Hm.
  - rewrite (filter_ext _ (fun _ => false)) by (intros w; rewrite index_nil; reflexivity).
    rewrite filter_false. reflexivity.
  - rewrite (filter_ext _
               (fun w => if f w =? Z.of_nat (length L) then g a
                         else match index L (f w) with
                              | Some x => g x
                              | None => false
                              end)).
    2:{ intros w. rewrite index_snoc.
        destruct (f w =? Z.of_nat (length L)); reflexivity. }
    rewrite count_override.
    2:{ intros w Hw. rewrite Hw. unfold index.
        destruct (Z.of_nat (length L) <? 0); [reflexivity |].
        rewrite Nat2Z.id.
        replace (nth_error L (length L)) with (@None A)
          by (symmetry; apply nth_error_None; lia).
        reflexivity. }
    rewrite IH.
    2:{ intros i Hi. apply Hm. rewrite length_app. simpl. lia. }
    rewrite filter_app, length_app. simpl.
    rewrite (Hm (Z.of_nat (length L)))
      by (rewrite length_app; simpl; lia).
    destruct (g a); simpl; lia.
Qed.

End CountingFacts.

Section UniformFacts.
Variable S : Services.
Let W : Type := world S.

Lemma count_occ_filter (L : list Lambda) (l : Lambda) :
  length (filter (fun x => if Lambda_eq_dec x l then true else false) L)
  = count_occ Lambda_eq_dec L l.
Proof.
  induction L as [| a L IH]; simpl; [reflexivity |].
  destruct (Lambda_eq_dec a l); simpl; rewrite IH; reflexivity.
Qed.

(** With two or more candidates, what is selected is read off the draw. *)
Lemma selects_by_draw (lambdas : list Lambda) (l : Lambda) (w : W) :
  (2 <= length lambdas)%nat ->
  selects S lambdas l w
  = match index lambdas
            (fst (rand_Intn S (Z.of_nat (length lambdas)) w)) with
    | Some x => if Lambda_eq_dec x l then true else false
    | None => false
    end.
Proof.
  intros Hlen.
  destruct (selectLambda_many S lambdas w Hlen) as (l' & Hi & Hrun).
  unfold selects. rewrite Hrun. cbn [value]. cbn zeta in Hi.
  rewrite Hi. reflexivity.
Qed.

(** A source that draws every position equally often makes the selection
    take every candidate equally often. *)
Lemma selection_uniform (lambdas : list Lambda) (ws : list W) (m : nat) :
  (2 <= length lambdas)%nat ->
  (forall i, 0 <= i < Z.of_nat (length lambdas) ->
             drawn_in S (Z.of_nat (length lambdas)) ws i = m) ->
  length ws = (length lambdas * m)%nat
  /\ forall l,
       selected_in S lambdas ws l
       = (count_occ Lambda_eq_dec lambdas l * m)%nat.
Proof.
  intros Hlen Hm. split.
  - pose proof (count_by_position W Lambda
                  (fun w => fst (rand_Intn S (Z.of_nat (length lambdas)) w))
                  (fun _ => true) ws m lambdas Hm) as Hc.
    rewrite (filter_true Lambda (fun _ => true) lambdas) in Hc
      by reflexivity.
    rewrite <- Hc. rewrite filter_true; [reflexivity |].
    intros w.
    assert (Hr : 0 <= fst (rand_Intn S (Z.of_nat (length lambdas)) w)
                 < Z.of_nat (length lambdas))
      by (apply rand_Intn_range; lia).
    destruct (index_in_range lambdas _ Hr) as (a & -> & _). reflexivity.
  - intros l. unfold selected_in. rewrite <- count_occ_filter.
    rewrite <- (count_by_position W Lambda
                  (fun w => fst (rand_Intn S (Z.of_nat (length lambdas)) w))
                  (fun x => if Lambda_eq_dec x l then true else false)
                  ws m lambdas Hm).
    f_equal. apply filter_ext_in. intros w _.
    apply selects_by_draw. exact Hlen.
Qed.

End UniformFacts.

(** * The claims *)

Section Claims.
Variable S : Services.
Let W : Type := world S.

(** C1.  A decoded message is acknowledged only after the dispatch to the
    selected worker succeeded: a delete request in the trace of its
    processing is the last event, it directly follows the dispatch call to
    the selected descriptor, and that call answered without error.  When
    the integrity gate rejects, when the health filter leaves no candidate,
    or when the dispatch fails, the trace holds no delete request. *)
Theorem C1_acknowledged_only_after_dispatch
  (c : Pipeline.SQSConsumer) (message : types.Message) (body : string)
  (msg : any) (w : W) :
  types.Body message = Some body ->
  json_Unmarshal_any S body = Some msg ->
  let r := Pipeline.processMessage S c message w in
  (forall q h, In (EvDeleteMessage q h) (trace r) ->
     exists lambdas l p response before,
       accepted S msg w
       /\ filtered S c msg w lambdas
       /\ value (pick S c msg w lambdas) = Selected l
       /\ json_Marshal S msg = Some p
       /\ answered
            (fst (lambda_Invoke S (ARN l) p (final (pick S c msg w lambdas))))
            response
       /\ trace r = before ++ [EvInvoke (ARN l) p; EvDeleteMessage q h]
       /\ unacknowledged before
       /\ types.ReceiptHandle message = Some h
       /\ q = Pipeline.queueURL c)
  /\ (~ accepted S msg w -> unacknowledged (trace r))
  /\ ((forall lambdas, ~ filtered S c msg w lambdas) ->
      unacknowledged (trace r))
  /\ (forall lambdas l err,
        filtered S c msg w lambdas ->
        value (pick S c msg w lambdas) = Selected l ->
        value (dispatch S c msg w lambdas l) = Fail err ->
        unacknowledged (trace r)).
Proof.
  intros Hb Hj r. subst r.
  split; [| split; [| split]].
  - intros q h Hin.
    destruct (value (Pipeline.handleBusinessLogic S c msg w)) eqn:Hh.
    + destruct (handleBusinessLogic_nil_inv S c msg w Hh)
        as (items & lambdas & l & response & Hacc & Hs & Hf & Hp & Hd & Ht).
      pose proof (handleBusinessLogic_unacknowledged S c msg w) as Hun.
      rewrite (processMessage_decoded S c message body msg w Hb Hj) in Hin |- *.
      cbn zeta in Hin |- *. rewrite Hh in Hin |- *. cbn [trace] in Hin |- *.
      apply in_app_or in Hin. destruct Hin as [Hin | Hin];
        [exfalso; exact (Hun q h Hin) |].
      rewrite deleteMessage_trace in Hin |- *.
      destruct (types.ReceiptHandle message) as [rh |]; [| destruct Hin].
      destruct Hin as [Heq | []]. inversion Heq; subst q h.
      apply InvokeSync_Ok_inv in Hd. destruct Hd as (p & Hm & Hans).
      exists lambdas, l, p, response,
        (trace (gate S msg w) ++ trace (scan S c msg w)
         ++ trace (pick S c msg w lambdas)).
      split; [exact Hacc |].
      split; [eapply pick_filtered; eassumption |].
      split; [exact Hp |]. split; [exact Hm |]. split; [exact Hans |].
      split.
      * rewrite Ht. unfold dispatch at 1. rewrite InvokeSync_trace, Hm.
        rewrite <- !app_assoc. reflexivity.
      * split; [| split; reflexivity].
        intros q' h' Hin'. apply (Hun q' h'). rewrite Ht.
        rewrite !app_assoc. apply in_or_app. left.
        rewrite <- !app_assoc. exact Hin'.
    + exfalso.
      destruct (processMessage_deferred S c message body msg w err Hb Hj Hh)
        as [_ Hu]. exact (Hu q h Hin).
    + exfalso. exact (handleBusinessLogic_no_panic S c msg w Hh).
  - intros Hrej.
    apply (processMessage_not_nil S c message body msg w Hb Hj).
    intros Hh. apply handleBusinessLogic_nil_inv in Hh.
    destruct Hh as (_ & _ & _ & _ & Hacc & _). exact (Hrej Hacc).
  - intros Hnone.
    apply (processMessage_not_nil S c message body msg w Hb Hj).
    intros Hh. apply handleBusinessLogic_nil_inv in Hh.
    destruct Hh as (items & lambdas & l & _ & _ & Hs & Hf & Hp & _).
    apply (Hnone lambdas). eapply pick_filtered; eassumption.
  - intros lambdas l err Hfil Hp Hd.
    apply (processMessage_not_nil S c message body msg w Hb Hj).
    intros Hh. apply handleBusinessLogic_nil_inv in Hh.
    destruct Hh as (items & lambdas' & l' & response & _ & Hs & Hf & Hp' & Hd' & _).
    assert (lambdas' = lambdas).
    { eapply filtered_unique; [eapply pick_filtered; eassumption | exact Hfil]. }
    subst lambdas'. assert (l' = l) by congruence. subst l'. congruence.
Qed.

(** C2 (amended).  A message whose body is absent, or does not decode
    under the format of the consumer, is dropped at once: the only call
    made for it is the delete request with its receipt handle, and when
    the receipt handle is absent no call is made at all.  In particular
    neither the validator nor a worker is invoked.  This holds for the
    direct-JSON pipeline and for the SNS-enveloped consumer. *)
Theorem C2_undecodable_dropped
  (c : Pipeline.SQSConsumer) (cs : SNSVariant.SQSConsumer)
  (message : types.Message) (w : W) :
  (undecodable S message ->
   let r := Pipeline.processMessage S c message w in
   value r = Dropped
   /\ trace r
      = match types.ReceiptHandle message with
        | Some h => [EvDeleteMessage (Pipeline.queueURL c) h]
        | None => []
        end
   /\ filter is_invoke (trace r) = [])
  /\ (undecodable_enveloped S message ->
      let r := SNSVariant.processMessage S cs message w in
      value r = Dropped
      /\ trace r
         = match types.ReceiptHandle message with
           | Some h => [EvDeleteMessage (SNSVariant.queueURL cs) h]
           | None => []
           end
      /\ filter is_invoke (trace r) = []).
Proof.
  split; intros Hu r; subst r.
  - rewrite (processMessage_undecodable S c message w Hu).
    cbn [value trace]. rewrite deleteMessage_trace.
    destruct (types.ReceiptHandle message); auto.
  - rewrite (sns_processMessage_undecodable S cs message w Hu).
    cbn [value trace]. rewrite sns_deleteMessage_trace.
    destruct (types.ReceiptHandle message); auto.
Qed.

(** C3.  For a decoded message: when the validator call fails, its
    answer does not decode, or the status code is not 200, processing
    stops after the validator call, the message is deferred and nothing is
    acknowledged.  The pipeline goes on to the registry scan if and only
    if the gate accepted, and for an answer that decodes that is exactly
    when its status code is 200. *)
Theorem C3_integrity_gate
  (c : Pipeline.SQSConsumer) (message : types.Message) (body : string)
  (msg : any) (w : W) :
  types.Body message = Some body ->
  json_Unmarshal_any S body = Some msg ->
  let r := Pipeline.processMessage S c message w in
  let scanned :=
    In (EvScan (tableName (Pipeline.dynamoDBClient c))) (trace r) in
  (~ accepted S msg w ->
   (exists err, value r = Deferred err)
   /\ trace r = trace (gate S msg w)
   /\ final r = final (gate S msg w)
   /\ unacknowledged (trace r))
  /\ (forall err,
        value (gate S msg w) = Fail err ->
        value r = Deferred (ErrCallingIntegrityLambda err))
  /\ (forall payload,
        value (gate S msg w) = Ok payload ->
        json_Unmarshal_LambdaResponse S payload = None ->
        value r = Deferred ErrUnmarshallingJson)
  /\ (forall payload integrity,
        value (gate S msg w) = Ok payload ->
        json_Unmarshal_LambdaResponse S payload = Some integrity ->
        (StatusCode integrity <> 200 ->
         value r = Deferred (ErrNotMatchingSignatures integrity))
        /\ (StatusCode integrity = 200 <-> scanned))
  /\ (accepted S msg w <-> scanned).
Proof.
  intros Hb Hj r scanned. subst r scanned.
  assert (Hacc_scan :
            accepted S msg w <->
            In (EvScan (tableName (Pipeline.dynamoDBClient c)))
               (trace (Pipeline.processMessage S c message w))).
  { destruct (processMessage_trace S c message body msg w Hb Hj)
      as (t & Ht & Hdel).
    rewrite Ht. split.
    - intros Hacc. destruct (accepted_scanned S c msg w Hacc) as (t' & Ht').
      rewrite Ht'. apply in_or_app. left. apply in_or_app. right.
      left. reflexivity.
    - intros Hin. apply in_app_or in Hin. destruct Hin as [Hin | Hin].
      + eapply scanned_accepted. exact Hin.
      + apply Hdel in Hin. discriminate. }
  assert (Hdef : forall err,
            Pipeline.handleBusinessLogic S c msg w
            = mkRun (HErr err) (final (gate S msg w)) (trace (gate S msg w)) ->
            Pipeline.processMessage S c message w
            = mkRun (Deferred err) (final (gate S msg w))
                    (trace (gate S msg w))).
  { intros err He.
    rewrite (processMessage_decoded S c message body msg w Hb Hj).
    cbn zeta. rewrite He. reflexivity. }
  split; [| split; [| split; [| split]]].
  - intros Hrej. destruct (rejected_exit S c msg w Hrej) as (err & He).
    pose proof (handleBusinessLogic_unacknowledged S c msg w) as Hun.
    rewrite He in Hun. cbn [trace] in Hun.
    rewrite (Hdef err He). cbn [value final trace]. eauto.
  - intros err Hv.
    rewrite (processMessage_decoded S c message body msg w Hb Hj). cbn zeta.
    destruct (handleBusinessLogic_exits S c msg w); cbn [value];
      solve [ congruence
            | match goal with
              | Ha : accepted _ _ _ |- _ =>
                  destruct Ha as (? & ? & ? & ? & ?); congruence
              end ].
  - intros payload Hv Hnone.
    rewrite (processMessage_decoded S c message body msg w Hb Hj). cbn zeta.
    destruct (handleBusinessLogic_exits S c msg w); cbn [value];
      solve [ congruence
            | match goal with
              | Ha : accepted _ _ _ |- _ =>
                  destruct Ha as (? & ? & ? & ? & ?); congruence
              end ].
  - intros payload integrity Hv Hsome. split.
    + intros Hne.
      rewrite (processMessage_decoded S c message body msg w Hb Hj). cbn zeta.
      destruct (handleBusinessLogic_exits S c msg w); cbn [value];
        solve [ congruence
              | match goal with
                | Ha : accepted _ _ _ |- _ =>
                    destruct Ha as (? & ? & ? & ? & ?); congruence
                end ].
    + rewrite <- Hacc_scan. split.
      * intros H200. exists payload, integrity. auto.
      * intros (p' & i' & Hv' & Hj' & H200). congruence.
  - exact Hacc_scan.
Qed.

(** C4.  When the gate accepted and no scanned row decodes to a
    descriptor flagged Healthy, the trace of the message is the validator
    call followed by the scan and nothing else: no worker is invoked, the
    message is deferred, and nothing is acknowledged. *)
Theorem C4_no_healthy_worker
  (c : Pipeline.SQSConsumer) (message : types.Message) (body : string)
  (msg : any) (w : W) (items : list Item) :
  types.Body message = Some body ->
  json_Unmarshal_any S body = Some msg ->
  accepted S msg w ->
  value (scan S c msg w) = Ok items ->
  (forall item l,
      In item items -> attributevalue_UnmarshalMap S item = Some l ->
      Status_ l <> Healthy) ->
  let r := Pipeline.processMessage S c message w in
  (exists p,
      json_Marshal S msg = Some p
      /\ trace r = [EvInvoke IntegrityLambda p;
                    EvScan (tableName (Pipeline.dynamoDBClient c))])
  /\ (value r = Deferred ErrNoHealthyLambdas
      \/ value r = Deferred ErrFailedToUnmarshalItem)
  /\ unacknowledged (trace r).
Proof.
  intros Hb Hj Hacc Hs Hnone r. subst r.
  destruct (accepted_gate S msg w Hacc) as (p & Hm & Hg).
  assert (Hsel : forall lambdas l w',
            Pipeline.healthyLambdas S items [] = Ok lambdas ->
            value (Pipeline.selectLambda S lambdas w') = Selected l -> False).
  { intros lambdas l w' Hh Hp.
    apply selectLambda_Selected_In in Hp.
    apply healthyLambdas_Ok in Hh. destruct Hh as [-> _]. simpl in Hp.
    apply healthy_of_In in Hp. destruct Hp as (Hst & item & Hi & Hu).
    exact (Hnone item l Hi Hu Hst). }
  pose proof (handleBusinessLogic_unacknowledged S c msg w) as Hun.
  rewrite (processMessage_decoded S c message body msg w Hb Hj). cbn zeta.
  destruct (handleBusinessLogic_exits S c msg w) as
    [ e Hv | pl Hv Hn | pl i Hv Hn Hc | e _ Hs' | its e _ Hs' Hh
    | its _ Hs' Hh | its ls l e _ Hs' Hh Hp Hd | its ls l rs _ Hs' Hh Hp Hd ];
    cbn [value trace final] in *;
    try (destruct Hacc as (? & ? & ? & ? & ?); congruence);
    try congruence.
  - rewrite Hg. unfold scan. rewrite Scan_trace.
    apply healthyLambdas_Fail in Hh. destruct Hh as [-> _].
    split; [exists p; split; [exact Hm | reflexivity] |].
    split; [right; reflexivity |].
    intros q h Hin. apply (Hun q h). rewrite Hg. unfold scan.
    rewrite Scan_trace. exact Hin.
  - rewrite Hg. unfold scan. rewrite Scan_trace.
    split; [exists p; split; [exact Hm | reflexivity] |].
    split; [left; reflexivity |].
    intros q h Hin. apply (Hun q h). rewrite Hg. unfold scan.
    rewrite Scan_trace. exact Hin.
  - exfalso. assert (its = items) by congruence. subst its.
    exact (Hsel ls l _ Hh Hp).
  - exfalso. assert (its = items) by congruence. subst its.
    exact (Hsel ls l _ Hh Hp).
Qed.

(** C5.  The candidates are exactly the scanned descriptors flagged
    Healthy, and whatever is selected is one of them, so a descriptor
    flagged Unhealthy is never selected.  A single candidate is selected
    in every world without consulting the random source.  With two or more
    candidates one draw of [rand.Intn(len)] is made and the selected
    descriptor is the one at the drawn position; hence over any ensemble
    of equally likely worlds in which [rand.Intn(len)] draws each of its
    [len] values equally often, in [m] worlds each, the ensemble has
    [len * m] worlds and every candidate is selected in [m] of them for
    each time it occurs in the list: the choice is uniform among the
    candidates, with frequency [1/len] for each when they are distinct. *)
Theorem C5_selection
  (items : list Item) (lambdas : list Lambda) (w : W) :
  Pipeline.healthyLambdas S items [] = Ok lambdas ->
  let sel := Pipeline.selectLambda S lambdas w in
  lambdas = healthy_of S items
  /\ (forall l,
        value sel = Selected l ->
        In l lambdas /\ Status_ l = Healthy /\ Status_ l <> Unhealthy)
  /\ (forall l, lambdas = [l] -> sel = mkRun (Selected l) w [])
  /\ ((2 <= length lambdas)%nat ->
      let n := Z.of_nat (length lambdas) in
      let i := fst (rand_Intn S n w) in
      0 <= i < n
      /\ exists l,
           nth_error lambdas (Z.to_nat i) = Some l
           /\ sel = mkRun (Selected l) (snd (rand_Intn S n w)) [EvIntn n])
  /\ ((2 <= length lambdas)%nat ->
      forall (ws : list W) (m : nat),
        (forall i, 0 <= i < Z.of_nat (length lambdas) ->
                   drawn_in S (Z.of_nat (length lambdas)) ws i = m) ->
        length ws = (length lambdas * m)%nat
        /\ (forall l,
              selected_in S lambdas ws l
              = (count_occ Lambda_eq_dec lambdas l * m)%nat)
        /\ (NoDup lambdas ->
            forall l, In l lambdas -> selected_in S lambdas ws l = m)).
Proof.
  intros Hh sel. subst sel.
  apply healthyLambdas_Ok in Hh. destruct Hh as [Hl _]. simpl in Hl.
  split; [exact Hl |]. split; [| split; [| split]].
  - intros l Hsel. apply selectLambda_Selected_In in Hsel.
    split; [exact Hsel |].
    rewrite Hl in Hsel. apply healthy_of_In in Hsel.
    destruct Hsel as [Hst _]. split; [exact Hst |].
    rewrite Hst. discriminate.
  - intros l ->. apply selectLambda_one.
  - intros Hlen n i.
    assert (Hr : 0 <= i < n) by (apply rand_Intn_range; subst n; lia).
    split; [exact Hr |].
    destruct (selectLambda_many S lambdas w Hlen) as (l & Hi & Hrun).
    exists l. split; [| exact Hrun].
    unfold index in Hi. fold n in Hi. fold i in Hi.
    destruct (i <? 0) eqn:Hneg; [discriminate | exact Hi].
  - intros Hlen ws m Hm.
    destruct (selection_uniform S lambdas ws m Hlen Hm) as (Htot & Hsel).
    split; [exact Htot |]. split; [exact Hsel |].
    intros Hnd l Hin. rewrite Hsel.
    rewrite (proj1 (NoDup_count_occ' Lambda_eq_dec lambdas) Hnd l Hin).
    apply Nat.mul_1_l.
Qed.

(** C6.  Once a descriptor is selected, the worker is invoked under the
    ARN of that descriptor with the marshalled decoded message, the very
    payload the validator was sent and not the verdict it returned.  A
    transport error or a function-error signal in the answer defers the
    message and nothing is acknowledged; an answer without them
    acknowledges it. *)
Theorem C6_dispatch
  (c : Pipeline.SQSConsumer) (message : types.Message) (body : string)
  (msg : any) (w : W) (lambdas : list Lambda) (l : Lambda) :
  types.Body message = Some body ->
  json_Unmarshal_any S body = Some msg ->
  accepted S msg w ->
  filtered S c msg w lambdas ->
  value (pick S c msg w lambdas) = Selected l ->
  let r := Pipeline.processMessage S c message w in
  let reply :=
    fun p => fst (lambda_Invoke S (ARN l) p (final (pick S c msg w lambdas))) in
  exists p,
    json_Marshal S msg = Some p
    /\ trace (gate S msg w) = [EvInvoke IntegrityLambda p]
    /\ (exists t,
          trace r
          = trace (gate S msg w) ++ trace (scan S c msg w)
            ++ trace (pick S c msg w lambdas) ++ EvInvoke (ARN l) p :: t
          /\ forall e, In e t -> is_delete e = true)
    /\ (forall err,
          failed (reply p) err ->
          value r = Deferred (ErrInvokingSelectedLambda (ARN l) err)
          /\ unacknowledged (trace r))
    /\ (forall response,
          answered (reply p) response -> value r = Acknowledged).
Proof.
  intros Hb Hj Hacc Hfil Hp r reply. subst r reply.
  destruct (accepted_gate S msg w Hacc) as (p & Hm & Hg).
  pose proof (dispatch_exit S c msg w lambdas l Hacc Hfil Hp) as Hexit.
  assert (Hdt : trace (dispatch S c msg w lambdas l) = [EvInvoke (ARN l) p]).
  { unfold dispatch. rewrite InvokeSync_trace, Hm. reflexivity. }
  exists p. split; [exact Hm |]. split; [exact Hg |]. split; [| split].
  - destruct (processMessage_trace S c message body msg w Hb Hj)
      as (t & Ht & Hdel).
    exists t. split; [| exact Hdel].
    rewrite Ht, Hexit. cbn [trace]. rewrite Hdt.
    rewrite <- !app_assoc. reflexivity.
  - intros err Hf.
    assert (Hd : value (dispatch S c msg w lambdas l) = Fail err).
    { unfold dispatch. rewrite (InvokeSync_failed S _ _ _ _ _ Hm Hf).
      reflexivity. }
    rewrite Hd in Hexit.
    assert (Hh : value (Pipeline.handleBusinessLogic S c msg w)
                 = HErr (ErrInvokingSelectedLambda (ARN l) err))
      by (rewrite Hexit; reflexivity).
    destruct (processMessage_deferred S c message body msg w _ Hb Hj Hh)
      as [Hr Hu].
    split; [rewrite Hr; reflexivity | exact Hu].
  - intros response Ha.
    assert (Hd : value (dispatch S c msg w lambdas l) = Ok response).
    { unfold dispatch. rewrite (InvokeSync_answered S _ _ _ _ _ Hm Ha).
      reflexivity. }
    rewrite Hd in Hexit.
    rewrite (processMessage_decoded S c message body msg w Hb Hj). cbn zeta.
    rewrite Hexit. reflexivity.
Qed.

(** C7.  A poll cycle makes exactly one receive request, first, asking
    for at most 10 messages.  When the request fails the cycle sleeps five
    seconds and ends with no message processed.  When it succeeds every
    returned message is processed, one after the other in the order
    received, each starting in the world the previous one left. *)
Theorem C7_poll_cycle (c : Pipeline.SQSConsumer) (w : W) :
  let r := Pipeline.pollMessages S c w in
  let request := EvReceiveMessage (Pipeline.queueURL c) 10 20 30 in
  let answer := sqs_ReceiveMessage S (Pipeline.queueURL c) 10 20 30 w in
  (exists t,
      trace r = request :: t
      /\ forall q n a b, ~ In (EvReceiveMessage q n a b) t)
  /\ (forall q n a b, In (EvReceiveMessage q n a b) (trace r) -> n <= 10)
  /\ (forall err,
        fst answer = Fail err ->
        value r = []
        /\ trace r = [request; EvSleep (5 * Second)]
        /\ final r = time_Sleep S (5 * Second) (snd answer))
  /\ (forall messages,
        fst answer = Ok messages ->
        exists t,
          trace r = request :: t
          /\ sequential S c messages (snd answer) (value r) t (final r)
          /\ length (value r) = length messages).
Proof.
  intros r request answer.
  assert (Hfail : forall err,
            fst answer = Fail err ->
            r = mkRun [] (time_Sleep S (5 * Second) (snd answer))
                      [request; EvSleep (5 * Second)]).
  { intros err He. subst r. unfold Pipeline.pollMessages, bind, call.
    cbn [value final trace]. fold answer. rewrite He.
    cbn [ret value final trace fst snd app]. reflexivity. }
  assert (Hok : forall messages,
            fst answer = Ok messages ->
            r = let rs := Pipeline.processMessages S c messages (snd answer) in
                mkRun (value rs) (final rs) (request :: trace rs)).
  { intros messages He. subst r. unfold Pipeline.pollMessages, bind, call.
    cbn [value final trace]. fold answer. rewrite He. reflexivity. }
  assert (Hshape : exists t,
            trace r = request :: t
            /\ forall q n a b, ~ In (EvReceiveMessage q n a b) t).
  { destruct (fst answer) as [messages | err] eqn:He.
    - rewrite (Hok messages eq_refl). cbn zeta. cbn [trace].
      eexists. split; [reflexivity |].
      intros q n a b Hin.
      pose proof (processMessages_calls S c messages _ _ _ _
                    (processMessages_sequential S c messages (snd answer))
                    _ Hin) as Hc.
      discriminate.
    - rewrite (Hfail err eq_refl). cbn [trace].
      eexists. split; [reflexivity |].
      intros q n a b [Hin | []]. discriminate. }
  split; [exact Hshape |]. split; [| split].
  - destruct Hshape as (t & Ht & Hnone). rewrite Ht.
    intros q n a b [Heq | Hin].
    + subst request. inversion Heq. lia.
    + exfalso. exact (Hnone q n a b Hin).
  - intros err He. rewrite (Hfail err He). auto.
  - intros messages He. rewrite (Hok messages He). cbn zeta.
    cbn [value final trace].
    pose proof (processMessages_sequential S c messages (snd answer)) as Hseq.
    eexists. split; [reflexivity |]. split; [exact Hseq |].
    eapply sequential_length. exact Hseq.
Qed.

(** C8 (amended).  Each consumer applies one envelope format to every
    message, fixed in its code and the same under every configuration:
    the pipeline consumer reads the body as direct JSON and hands the
    decoded value itself to the validator, dropping the message exactly
    when that decoding fails; the enveloped consumer reads the body as an
    SNS wrapper and its [Message] field as a JSON object, acknowledging
    when both decode and dropping otherwise.  Neither consults the decoder
    of the other format. *)
Theorem C8_format_fixed_in_code
  (c : Pipeline.SQSConsumer) (cs : SNSVariant.SQSConsumer)
  (message : types.Message) (body : string) (w : W) :
  types.Body message = Some body ->
  let r := Pipeline.processMessage S c message w in
  let rs := SNSVariant.processMessage S cs message w in
  (value r = Dropped <-> json_Unmarshal_any S body = None)
  /\ (forall msg,
        json_Unmarshal_any S body = Some msg ->
        exists t, trace r = trace (gate S msg w) ++ t)
  /\ (value rs = Acknowledged <->
      exists snsWrapper appMessage,
        json_Unmarshal_SNSWrapper S body = Some snsWrapper
        /\ json_Unmarshal_map S (sns.Message snsWrapper) = Some appMessage)
  /\ (value rs = Dropped <-> value rs <> Acknowledged).
Proof.
  intros Hb r rs. subst r rs.
  split; [| split; [| split]].
  - destruct (json_Unmarshal_any S body) as [msg |] eqn:Hj.
    + split; [| discriminate]. intros Hd. exfalso.
      rewrite (processMessage_decoded S c message body msg w Hb Hj) in Hd.
      cbn zeta in Hd.
      destruct (value (Pipeline.handleBusinessLogic S c msg w));
        discriminate.
    + split; [reflexivity |]. intros _.
      rewrite processMessage_undecodable by (right; exists body; auto).
      reflexivity.
  - intros msg Hj.
    destruct (processMessage_trace S c message body msg w Hb Hj)
      as (t & Ht & _).
    rewrite Ht.
    destruct (handleBusinessLogic_exits S c msg w); cbn [trace];
      rewrite <- ?app_assoc; eexists;
      try reflexivity; rewrite <- app_nil_r at 1; rewrite <- app_assoc;
      reflexivity.
  - unfold SNSVariant.processMessage. rewrite Hb.
    destruct (json_Unmarshal_SNSWrapper S body) as [snsWrapper |].
    + destruct (json_Unmarshal_map S (sns.Message snsWrapper))
        as [appMessage |] eqn:Hm.
      * split; [intros _; exists snsWrapper, appMessage; auto |].
        intros _. reflexivity.
      * split; [discriminate |].
        intros (sw & am & Hsw & Ham). inversion Hsw; subst. congruence.
    + split; [discriminate |]. intros (sw & am & Hsw & _). discriminate.
  - unfold SNSVariant.processMessage. rewrite Hb.
    destruct (json_Unmarshal_SNSWrapper S body) as [snsWrapper |].
    + destruct (json_Unmarshal_map S (sns.Message snsWrapper)).
      * split; [discriminate | intros H; exfalso; apply H; reflexivity].
      * split; [discriminate | reflexivity].
    + split; [discriminate | reflexivity].
Qed.

(** C9.  When the gate accepted and one scanned row does not decode
    into a descriptor, the health filter aborts with the decoding error:
    the message is deferred, no worker is invoked after the scan and
    nothing is acknowledged, whatever the other rows hold. *)
Theorem C9_malformed_item_aborts
  (c : Pipeline.SQSConsumer) (message : types.Message) (body : string)
  (msg : any) (w : W) (items : list Item) (item : Item) :
  types.Body message = Some body ->
  json_Unmarshal_any S body = Some msg ->
  accepted S msg w ->
  value (scan S c msg w) = Ok items ->
  In item items ->
  attributevalue_UnmarshalMap S item = None ->
  let r := Pipeline.processMessage S c message w in
  value r = Deferred ErrFailedToUnmarshalItem
  /\ (exists p,
        json_Marshal S msg = Some p
        /\ trace r = [EvInvoke IntegrityLambda p;
                      EvScan (tableName (Pipeline.dynamoDBClient c))])
  /\ unacknowledged (trace r).
Proof.
  intros Hb Hj Hacc Hs Hin Hbad r. subst r.
  pose proof (healthyLambdas_malformed S items [] item Hin Hbad) as Hh.
  pose proof (item_exit S c msg w items _ Hacc Hs Hh) as Hexit.
  assert (Hv : value (Pipeline.handleBusinessLogic S c msg w)
               = HErr ErrFailedToUnmarshalItem)
    by (rewrite Hexit; reflexivity).
  destruct (processMessage_deferred S c message body msg w _ Hb Hj Hv)
    as [Hr Hu].
  destruct (accepted_gate S msg w Hacc) as (p & Hm & Hg).
  split; [rewrite Hr; reflexivity |]. split; [| exact Hu].
  exists p. split; [exact Hm |].
  rewrite Hr. cbn [trace]. rewrite Hexit. cbn [trace].
  rewrite Hg. unfold scan. rewrite Scan_trace. reflexivity.
Qed.


End Claims.

(** * The claims on concrete runs *)

(** The gate accepts the order whenever the validator answers 200. *)
Lemma accepted_order (w : Fake.World) :
  Fake.assoc IntegrityLambda (Fake.functions w)
  = Some (Fake.answers Fake.ok_verdict) ->
  accepted Fake.services Fake.order w.
Proof.
  intros Hf.
  exists Fake.ok_verdict, {| StatusCode := 200; Body := JString "ok" |}.
  split; [| split; reflexivity].
  unfold gate, Pipeline.InvokeSync, bind, call.
  cbn [json_Marshal Fake.services lambda_Invoke].
  change (Fake.Marshal Fake.order) with (Some Fake.order_body).
  cbn [value final trace fst snd Fake.Invoke]. rewrite Hf. reflexivity.
Defined.

(** In the first scenario the order is deleted last, right after worker
    B was invoked with it. *)
Lemma C1_witness :
  let r := Pipeline.processMessage Fake.services Fake.consumer
             Fake.order_message Fake.world0 in
  types.Body Fake.order_message = Some Fake.order_body
  /\ json_Unmarshal_any Fake.services Fake.order_body = Some Fake.order
  /\ In (EvDeleteMessage "https://sqs/queue" "rh-1") (trace r)
  /\ exists l p before,
       trace r
       = before ++ [EvInvoke (ARN l) p;
                    EvDeleteMessage "https://sqs/queue" "rh-1"]
       /\ unacknowledged before.
Proof.
  intros r.
  assert (Hin : In (EvDeleteMessage "https://sqs/queue" "rh-1") (trace r)).
  { vm_compute. do 4 right. left. reflexivity. }
  split; [reflexivity |]. split; [reflexivity |]. split; [exact Hin |].
  destruct (proj1 (C1_acknowledged_only_after_dispatch Fake.services
                     Fake.consumer Fake.order_message Fake.order_body
                     Fake.order Fake.world0 eq_refl eq_refl) _ _ Hin)
    as (lambdas & l & p & response & before & _ & _ & _ & _ & _ & Ht & Hu & _).
  exists l, p, before. split; [exact Ht | exact Hu].
Defined.

(** A message without body and without receipt handle is dropped, yet no
    delete request is sent and the fake queue deleted nothing. *)
Lemma C2_counterexample :
  let message := Fake.message None None in
  let r := Pipeline.processMessage Fake.services Fake.consumer message
             Fake.world0 in
  undecodable Fake.services message
  /\ value r = Dropped
  /\ trace r = []
  /\ Fake.deleted (final r) = []
  /\ ~ exists q h, In (EvDeleteMessage q h) (trace r).
Proof.
  split; [left; reflexivity |].
  split; [reflexivity |]. split; [reflexivity |]. split; [reflexivity |].
  intros (q & h & Hin). exact Hin.
Qed.

(** A message without body but with a receipt handle: one delete request
    and nothing else, in both consumers. *)
Lemma C2_witness :
  let message := Fake.message None (Some "rh-1") in
  undecodable Fake.services message
  /\ undecodable_enveloped Fake.services message
  /\ trace (Pipeline.processMessage Fake.services Fake.consumer message
              Fake.world0)
     = [EvDeleteMessage "https://sqs/queue" "rh-1"]
  /\ trace (SNSVariant.processMessage Fake.services Fake.sns_consumer message
              Fake.world0)
     = [EvDeleteMessage "https://sqs/queue" "rh-1"].
Proof.
  intros message.
  assert (Hu : undecodable Fake.services message) by (left; reflexivity).
  assert (Hs : undecodable_enveloped Fake.services message)
    by (left; reflexivity).
  split; [exact Hu |]. split; [exact Hs |].
  pose proof (C2_undecodable_dropped Fake.services Fake.consumer
                Fake.sns_consumer message Fake.world0) as [Hp He].
  split.
  - exact (proj1 (proj2 (Hp Hu))).
  - exact (proj1 (proj2 (He Hs))).
Defined.

(** The validator answers 500: the order is deferred and the only call
    is the one to the validator. *)
Lemma C3_witness :
  let r := Pipeline.processMessage Fake.services Fake.consumer
             Fake.order_message Fake.world_rejecting in
  types.Body Fake.order_message = Some Fake.order_body
  /\ json_Unmarshal_any Fake.services Fake.order_body = Some Fake.order
  /\ ~ accepted Fake.services Fake.order Fake.world_rejecting
  /\ (exists err, value r = Deferred err)
  /\ trace r = trace (gate Fake.services Fake.order Fake.world_rejecting)
  /\ unacknowledged (trace r).
Proof.
  intros r.
  assert (Hrej : ~ accepted Fake.services Fake.order Fake.world_rejecting).
  { intros (payload & integrity & Hv & Hj & Hc).
    vm_compute in Hv. inversion Hv; subst payload.
    vm_compute in Hj. inversion Hj; subst integrity.
    discriminate Hc. }
  split; [reflexivity |]. split; [reflexivity |]. split; [exact Hrej |].
  destruct (proj1 (C3_integrity_gate Fake.services Fake.consumer
                     Fake.order_message Fake.order_body Fake.order
                     Fake.world_rejecting eq_refl eq_refl) Hrej)
    as (He & Ht & _ & Hu).
  split; [exact He |]. split; [exact Ht | exact Hu].
Defined.

(** Only an Unhealthy descriptor is registered: validator call, scan,
    and nothing more. *)
Lemma C4_witness :
  let r := Pipeline.processMessage Fake.services Fake.consumer
             Fake.order_message Fake.world_unhealthy in
  accepted Fake.services Fake.order Fake.world_unhealthy
  /\ value (scan Fake.services Fake.consumer Fake.order Fake.world_unhealthy)
     = Ok [Fake.rowC]
  /\ (exists p,
        json_Marshal Fake.services Fake.order = Some p
        /\ trace r = [EvInvoke IntegrityLambda p; EvScan "lambdas"])
  /\ unacknowledged (trace r).
Proof.
  intros r.
  assert (Hacc : accepted Fake.services Fake.order Fake.world_unhealthy)
    by (apply accepted_order; reflexivity).
  assert (Hnone : forall item l,
             In item [Fake.rowC] ->
             attributevalue_UnmarshalMap Fake.services item = Some l ->
             Status_ l <> Healthy).
  { intros item l [<- | []] Hu. vm_compute in Hu.
    inversion Hu; subst l. discriminate. }
  split; [exact Hacc |]. split; [reflexivity |].
  destruct (C4_no_healthy_worker Fake.services Fake.consumer
              Fake.order_message Fake.order_body Fake.order
              Fake.world_unhealthy [Fake.rowC] eq_refl eq_refl Hacc
              eq_refl Hnone)
    as (Ht & _ & Hu).
  split; [exact Ht | exact Hu].
Defined.

(** Rows A, C, B: the candidates are A and B.  Over four equally
    likely seeds, two drawing 0 and two drawing 1, A is selected in two
    worlds and B in two. *)
Lemma C5_witness :
  Pipeline.healthyLambdas Fake.services [Fake.rowA; Fake.rowC; Fake.rowB] []
  = Ok [Fake.lambdaA; Fake.lambdaB]
  /\ (forall i, 0 <= i < 2 -> drawn_in Fake.services 2 Scenario.seeds i = 2%nat)
  /\ length Scenario.seeds = 4%nat
  /\ selected_in Fake.services [Fake.lambdaA; Fake.lambdaB] Scenario.seeds
       Fake.lambdaA = 2%nat
  /\ selected_in Fake.services [Fake.lambdaA; Fake.lambdaB] Scenario.seeds
       Fake.lambdaB = 2%nat
  /\ value (Pipeline.selectLambda Fake.services
              [Fake.lambdaA; Fake.lambdaB] Fake.world0)
     = Selected Fake.lambdaB
  /\ Status_ Fake.lambdaB = Healthy.
Proof.
  assert (Hh : Pipeline.healthyLambdas Fake.services
                 [Fake.rowA; Fake.rowC; Fake.rowB] []
               = Ok [Fake.lambdaA; Fake.lambdaB]) by reflexivity.
  assert (Hm : forall i, 0 <= i < 2 ->
                 drawn_in Fake.services 2 Scenario.seeds i = 2%nat).
  { intros i Hi. assert (Hc : i = 0 \/ i = 1) by lia.
    destruct Hc as [-> | ->]; reflexivity. }
  assert (Hnd : NoDup [Fake.lambdaA; Fake.lambdaB]).
  { constructor.
    - intros [H | []]. discriminate H.
    - constructor; [intros [] | constructor]. }
  assert (Hs : value (Pipeline.selectLambda Fake.services
                        [Fake.lambdaA; Fake.lambdaB] Fake.world0)
               = Selected Fake.lambdaB) by reflexivity.
  destruct (C5_selection Fake.services [Fake.rowA; Fake.rowC; Fake.rowB]
              [Fake.lambdaA; Fake.lambdaB] Fake.world0 Hh)
    as (_ & Hmem & _ & _ & Huni).
  destruct (Huni (le_n 2) Scenario.seeds 2%nat Hm) as (Htot & _ & Heach).
  split; [exact Hh |]. split; [exact Hm |]. split; [exact Htot |].
  split; [exact (Heach Hnd Fake.lambdaA (or_introl eq_refl)) |].
  split; [exact (Heach Hnd Fake.lambdaB (or_intror (or_introl eq_refl))) |].
  split; [exact Hs |].
  exact (proj1 (proj2 (Hmem Fake.lambdaB Hs))).
Defined.

(** Worker B signals a function error: it was invoked under its ARN with
    the order, and the order is deferred. *)
Lemma C6_witness :
  let r := Pipeline.processMessage Fake.services Fake.consumer
             Fake.order_message Fake.world_failing_worker in
  accepted Fake.services Fake.order Fake.world_failing_worker
  /\ filtered Fake.services Fake.consumer Fake.order
       Fake.world_failing_worker [Fake.lambdaA; Fake.lambdaB]
  /\ In (EvInvoke "arn:B" Fake.order_body) (trace r)
  /\ value r
     = Deferred (ErrInvokingSelectedLambda "arn:B"
                   (ErrLambdaFunction "Unhandled" "{}"))
  /\ unacknowledged (trace r).
Proof.
  intros r.
  assert (Hacc : accepted Fake.services Fake.order Fake.world_failing_worker)
    by (apply accepted_order; reflexivity).
  assert (Hfil : filtered Fake.services Fake.consumer Fake.order
                   Fake.world_failing_worker [Fake.lambdaA; Fake.lambdaB]).
  { exists [Fake.rowA; Fake.rowC; Fake.rowB].
    split; [reflexivity |]. split; [reflexivity | discriminate]. }
  split; [exact Hacc |]. split; [exact Hfil |].
  destruct (C6_dispatch Fake.services Fake.consumer Fake.order_message
              Fake.order_body Fake.order Fake.world_failing_worker
              [Fake.lambdaA; Fake.lambdaB] Fake.lambdaB
              eq_refl eq_refl Hacc Hfil eq_refl)
    as (p & Hm & _ & (t & Ht & _) & Hfail & _).
  assert (Hp : p = Fake.order_body).
  { change (json_Marshal Fake.services Fake.order) with (Some Fake.order_body)
      in Hm.
    inversion Hm. reflexivity. }
  subst p. subst r.
  split.
  - rewrite Ht. apply in_or_app. right. apply in_or_app. right.
    apply in_or_app. right. left. reflexivity.
  - apply Hfail.
    apply (failed_function
             {| lambda.FunctionError := Some "Unhandled";
                lambda.Payload := "{}" |} "Unhandled").
    reflexivity.
Defined.

(** A batch of two: one receive request for 10, then the first message
    (dropped), then the second (acknowledged). *)
Lemma C7_witness :
  let r := Pipeline.pollMessages Fake.services Fake.consumer
             Fake.world_batch in
  value r = [Dropped; Acknowledged]
  /\ (exists t,
        trace r = EvReceiveMessage "https://sqs/queue" 10 20 30 :: t
        /\ forall q n a b, ~ In (EvReceiveMessage q n a b) t)
  /\ length (value r) = 2%nat.
Proof.
  intros r.
  pose proof (C7_poll_cycle Fake.services Fake.consumer Fake.world_batch)
    as (Hshape & _ & _ & Hok).
  split; [reflexivity |]. split; [exact Hshape |].
  destruct (Hok _ eq_refl) as (t & _ & _ & Hlen). exact Hlen.
Defined.

(** No configuration of the pipeline consumer makes it unwrap an SNS
    envelope: under every one the validator is sent the envelope itself
    and never the order inside it.  No configuration of the enveloped
    consumer makes it take a direct body: under every one the order sent
    bare is dropped. *)
Lemma C8_counterexample :
  let enveloped := Fake.message (Some Fake.envelope_body) (Some "rh-1") in
  (forall c,
      In (EvInvoke IntegrityLambda Fake.envelope_body)
         (trace (Pipeline.processMessage Fake.services c enveloped
                   Fake.world0)))
  /\ ~ (exists c,
          In (EvInvoke IntegrityLambda Fake.order_body)
             (trace (Pipeline.processMessage Fake.services c enveloped
                       Fake.world0)))
  /\ ~ (exists cs,
          value (SNSVariant.processMessage Fake.services cs
                   Fake.order_message Fake.world0) <> Dropped).
Proof.
  split; [| split].
  - intros c. left. reflexivity.
  - intros (c & Hin). vm_compute in Hin.
    repeat (destruct Hin as [Hin | Hin]; [discriminate Hin |]).
    exact Hin.
  - intros (cs & Hne). apply Hne. reflexivity.
Qed.

(** The same enveloped body under both consumers: the pipeline hands the
    envelope to the validator, the enveloped consumer acknowledges. *)
Lemma C8_witness :
  let enveloped := Fake.message (Some Fake.envelope_body) (Some "rh-1") in
  types.Body enveloped = Some Fake.envelope_body
  /\ value (Pipeline.processMessage Fake.services Fake.consumer enveloped
              Fake.world0) <> Dropped
  /\ value (SNSVariant.processMessage Fake.services Fake.sns_consumer
              enveloped Fake.world0) = Acknowledged.
Proof.
  intros enveloped.
  pose proof (C8_format_fixed_in_code Fake.services Fake.consumer
                Fake.sns_consumer enveloped Fake.envelope_body Fake.world0
                eq_refl) as (Hd & _ & Ha & _).
  split; [reflexivity |]. split.
  - intros H. apply Hd in H. discriminate H.
  - apply Ha. eexists. eexists. split; reflexivity.
Defined.

(** A malformed row between two healthy ones: the order is deferred with
    the decoding error and no worker is invoked. *)
Lemma C9_witness :
  let r := Pipeline.processMessage Fake.services Fake.consumer
             Fake.order_message Fake.world_malformed in
  accepted Fake.services Fake.order Fake.world_malformed
  /\ In Fake.row_malformed [Fake.rowA; Fake.row_malformed; Fake.rowB]
  /\ attributevalue_UnmarshalMap Fake.services Fake.row_malformed = None
  /\ attributevalue_UnmarshalMap Fake.services Fake.rowA = Some Fake.lambdaA
  /\ value r = Deferred ErrFailedToUnmarshalItem
  /\ unacknowledged (trace r).
Proof.
  intros r.
  assert (Hacc : accepted Fake.services Fake.order Fake.world_malformed)
    by (apply accepted_order; reflexivity).
  assert (Hin : In Fake.row_malformed
                  [Fake.rowA; Fake.row_malformed; Fake.rowB])
    by (right; left; reflexivity).
  split; [exact Hacc |]. split; [exact Hin |].
  split; [reflexivity |]. split; [reflexivity |].
  destruct (C9_malformed_item_aborts Fake.services Fake.consumer
              Fake.order_message Fake.order_body Fake.order
              Fake.world_malformed
              [Fake.rowA; Fake.row_malformed; Fake.rowB] Fake.row_malformed
              eq_refl eq_refl Hacc eq_refl Hin eq_refl)
    as (Hv & _ & Hu).
  split; [exact Hv | exact Hu].
Defined.




(** * Beyond the claims *)

(** ** The calls of one attempt *)

Section AttemptFacts.
Variable S : Services.
Let W : Type := world S.

Lemma stages_calls (table : string) (t : list Event) (e : Event) :
  stages table t -> In e t ->
  is_delete e = false /\ is_poll_call e = false.
Proof.
  intros Hs Hin. destruct Hs; simpl in Hin;
    intuition (subst; split; reflexivity).
Qed.

Lemma stages_no_delete (table : string) (t : list Event) :
  stages table t -> filter is_delete t = [].
Proof. intros Hs. destruct Hs; reflexivity. Qed.

Lemma dispatch_trace (c : Pipeline.SQSConsumer) (msg : any) (w : W)
  (lambdas : list Lambda) (l : Lambda) (p : string) :
  json_Marshal S msg = Some p ->
  trace (dispatch S c msg w lambdas l) = [EvInvoke (ARN l) p].
Proof.
  intros Hm. unfold dispatch. rewrite InvokeSync_trace, Hm. reflexivity.
Qed.

Lemma pick_stages (c : Pipeline.SQSConsumer) (msg : any) (w : W)
  (lambdas : list Lambda) (l : Lambda) (p : string) :
  stages (tableName (Pipeline.dynamoDBClient c))
    ([EvInvoke IntegrityLambda p]
     ++ [EvScan (tableName (Pipeline.dynamoDBClient c))]
     ++ trace (pick S c msg w lambdas) ++ [EvInvoke (ARN l) p]).
Proof.
  unfold pick. rewrite selectLambda_trace.
  destruct (2 <=? length lambdas)%nat eqn:Hlen; cbn [app].
  - apply stages_drawn. apply Nat.leb_le in Hlen. lia.
  - apply stages_single.
Qed.

(** The business logic goes through its stages in order, each at most
    once. *)
Lemma handleBusinessLogic_stages (c : Pipeline.SQSConsumer) (msg : any)
  (w : W) :
  stages (tableName (Pipeline.dynamoDBClient c))
    (trace (Pipeline.handleBusinessLogic S c msg w)).
Proof.
  destruct (json_Marshal S msg) as [p |] eqn:Hm.
  - assert (Hg : trace (gate S msg w) = [EvInvoke IntegrityLambda p])
      by (unfold gate; rewrite InvokeSync_trace, Hm; reflexivity).
    assert (Hs : trace (scan S c msg w)
                 = [EvScan (tableName (Pipeline.dynamoDBClient c))])
      by (unfold scan; apply Scan_trace).
    destruct (handleBusinessLogic_exits S c msg w); cbn [trace];
      rewrite ?Hg, ?Hs, ?(dispatch_trace c msg w _ _ p Hm);
      try apply stages_gate; try apply stages_scan; apply pick_stages.
  - assert (Hg : trace (gate S msg w) = [])
      by (unfold gate; rewrite InvokeSync_trace, Hm; reflexivity).
    destruct (handleBusinessLogic_exits S c msg w); cbn [trace];
      rewrite ?Hg; try apply stages_none; exfalso;
      match goal with
      | Ha : accepted _ _ _ |- _ =>
          apply accepted_gate in Ha; destruct Ha as (? & ? & _); congruence
      end.
Qed.

(** A run to [return nil] went through validator, scan and dispatch. *)
Lemma handleBusinessLogic_nil_length (c : Pipeline.SQSConsumer) (msg : any)
  (w : W) :
  value (Pipeline.handleBusinessLogic S c msg w) = HNil ->
  (3 <= length (trace (Pipeline.handleBusinessLogic S c msg w)))%nat.
Proof.
  intros Hh.
  destruct (handleBusinessLogic_nil_inv S c msg w Hh)
    as (items & lambdas & l & response & Hacc & _ & _ & _ & Hd & Ht).
  destruct (accepted_gate S msg w Hacc) as (p & Hm & Hg).
  rewrite Ht, Hg, (dispatch_trace c msg w _ _ p Hm).
  unfold scan. rewrite Scan_trace. rewrite !length_app. simpl. lia.
Qed.

(** The delete requests of one message, whatever its body. *)
Lemma processMessage_deletes (c : Pipeline.SQSConsumer)
  (message : types.Message) (w : W) :
  filter is_delete (trace (Pipeline.processMessage S c message w))
  = if settled (value (Pipeline.processMessage S c message w))
    then delete_request (Pipeline.queueURL c) message
    else [].
Proof.
  assert (Hd : filter is_delete (delete_request (Pipeline.queueURL c) message)
               = delete_request (Pipeline.queueURL c) message).
  { unfold delete_request. destruct (types.ReceiptHandle message); reflexivity. }
  destruct (types.Body message) as [body |] eqn:Hb.
  - destruct (json_Unmarshal_any S body) as [msg |] eqn:Hj.
    + rewrite (processMessage_decoded S c message body msg w Hb Hj). cbn zeta.
      pose proof (stages_no_delete _ _ (handleBusinessLogic_stages c msg w))
        as Hnone.
      destruct (value (Pipeline.handleBusinessLogic S c msg w));
        cbn [value trace settled]; rewrite ?filter_app, Hnone;
        try reflexivity.
      rewrite deleteMessage_trace. exact Hd.
    + rewrite processMessage_undecodable by (right; exists body; auto).
      cbn [value trace settled]. rewrite deleteMessage_trace. exact Hd.
  - rewrite processMessage_undecodable by (left; exact Hb).
    cbn [value trace settled]. rewrite deleteMessage_trace. exact Hd.
Qed.

(** A failed scan is the exit of the business logic. *)
Lemma scan_exit (c : Pipeline.SQSConsumer) (msg : any) (w : W) (err : Error) :
  accepted S msg w ->
  value (scan S c msg w) = Fail err ->
  Pipeline.handleBusinessLogic S c msg w
  = mkRun (HErr (ErrItemNotFound
                   (tableName (Pipeline.dynamoDBClient c)) err))
          (final (scan S c msg w))
          (trace (gate S msg w) ++ trace (scan S c msg w)).
Proof.
  intros Hacc Hs.
  destruct (handleBusinessLogic_exits S c msg w);
    try solve [ exfalso; congruence
              | exfalso; destruct Hacc as (? & ? & ? & ? & ?); congruence ].
  replace err0 with err by congruence. reflexivity.
Qed.

Lemma Scan_Fail_inv (d : DynamoDBClient) (w : W) (err : Error) :
  value (Pipeline.Scan S d w) = Fail err ->
  exists cause,
    err = ErrScanning cause
    /\ fst (dynamodb_Scan S (tableName d) w) = Fail cause.
Proof.
  unfold Pipeline.Scan, bind, call. simpl.
  destruct (fst (dynamodb_Scan S (tableName d) w)) as [items | cause];
    simpl; intros H; inversion H; subst.
  exists cause. auto.
Qed.

End AttemptFacts.

(** ** The calls of one poll cycle *)

Section CycleFacts.
Variable S : Services.
Let W : Type := world S.

Lemma filter_none {A} (f : A -> bool) (l : list A) :
  (forall a, In a l -> f a = false) -> filter f l = [].
Proof.
  induction l as [| a l IH]; intros H; simpl.
  - reflexivity.
  - rewrite (H a (or_introl eq_refl)). apply IH.
    intros b Hb. apply H. right. exact Hb.
Qed.

Lemma pollMessages_failed (c : Pipeline.SQSConsumer) (w : W) (err : Error) :
  fst (sqs_ReceiveMessage S (Pipeline.queueURL c) 10 20 30 w) = Fail err ->
  Pipeline.pollMessages S c w
  = mkRun []
      (time_Sleep S (5 * Second)
         (snd (sqs_ReceiveMessage S (Pipeline.queueURL c) 10 20 30 w)))
      [EvReceiveMessage (Pipeline.queueURL c) 10 20 30; EvSleep (5 * Second)].
Proof.
  intros He. unfold Pipeline.pollMessages, bind, call.
  cbn [value final trace]. rewrite He.
  cbn [ret value final trace fst snd app]. reflexivity.
Qed.

Lemma pollMessages_received (c : Pipeline.SQSConsumer) (w : W)
  (messages : list types.Message) :
  fst (sqs_ReceiveMessage S (Pipeline.queueURL c) 10 20 30 w) = Ok messages ->
  Pipeline.pollMessages S c w
  = let rs := Pipeline.processMessages S c messages
                (snd (sqs_ReceiveMessage S (Pipeline.queueURL c) 10 20 30 w)) in
    mkRun (value rs) (final rs)
          (EvReceiveMessage (Pipeline.queueURL c) 10 20 30 :: trace rs).
Proof.
  intros He. unfold Pipeline.pollMessages, bind, call.
  cbn [value final trace]. rewrite He. reflexivity.
Qed.

Lemma sequential_deletes (c : Pipeline.SQSConsumer)
  (messages : list types.Message) (w w' : W) (os : list Outcome)
  (t : list Event) :
  sequential S c messages w os t w' ->
  filter is_delete t = delete_requests (Pipeline.queueURL c) messages os.
Proof.
  induction 1 as [| message rest w os t w' _ IH].
  - reflexivity.
  - cbn [delete_requests]. rewrite filter_app, processMessage_deletes, IH.
    reflexivity.
Qed.

Lemma sequential_no_panic (c : Pipeline.SQSConsumer)
  (messages : list types.Message) (w w' : W) (os : list Outcome)
  (t : list Event) :
  sequential S c messages w os t w' -> ~ In Panicked os.
Proof.
  induction 1 as [| message rest w os t w' _ IH]; intros Hin.
  - destruct Hin.
  - destruct Hin as [Heq | Hin]; [| exact (IH Hin)].
    exact (processMessage_no_panic S c message w Heq).
Qed.

Lemma delete_requests_In (url : string) (messages : list types.Message) :
  forall os q h,
    In (EvDeleteMessage q h) (delete_requests url messages os) ->
    q = url
    /\ exists message,
         In message messages /\ types.ReceiptHandle message = Some h.
Proof.
  induction messages as [| message rest IH]; intros os q h Hin.
  - destruct Hin.
  - destruct os as [| o os]; [destruct Hin |].
    cbn [delete_requests] in Hin. apply in_app_or in Hin.
    destruct Hin as [Hin | Hin].
    + destruct (settled o); [| destruct Hin].
      unfold delete_request in Hin.
      destruct (types.ReceiptHandle message) as [rh |] eqn:Hrh;
        [| destruct Hin].
      destruct Hin as [Heq | []]. inversion Heq; subst.
      split; [reflexivity |]. exists message. split; [left; reflexivity | exact Hrh].
    + destruct (IH os q h Hin) as (Hq & m & Hm & Hh).
      split; [exact Hq |]. exists m. split; [right; exact Hm | exact Hh].
Qed.

Lemma delete_requests_length (url : string) (messages : list types.Message) :
  forall os,
    (length (delete_requests url messages os) <= length messages)%nat.
Proof.
  induction messages as [| message rest IH]; intros os.
  - simpl. lia.
  - destruct os as [| o os]; [simpl; lia |].
    cbn [delete_requests]. rewrite length_app. specialize (IH os).
    assert ((length (if settled o then delete_request url message else [])
             <= 1)%nat).
    { unfold delete_request.
      destruct (settled o), (types.ReceiptHandle message); simpl; lia. }
    simpl. lia.
Qed.

(** One cycle, one receive request. *)
Lemma pollMessages_receives (c : Pipeline.SQSConsumer) (w : W) :
  filter is_receive (trace (Pipeline.pollMessages S c w))
  = [EvReceiveMessage (Pipeline.queueURL c) 10 20 30].
Proof.
  destruct (fst (sqs_ReceiveMessage S (Pipeline.queueURL c) 10 20 30 w))
    as [messages | err] eqn:He.
  - rewrite (pollMessages_received c w messages He). cbn zeta.
    cbn [trace filter is_receive]. f_equal.
    apply filter_none. intros e Hin.
    pose proof (processMessages_calls S c messages _ _ _ _
                  (processMessages_sequential S c messages _) e Hin) as Hc.
    destruct e; simpl in Hc |- *; congruence.
  - rewrite (pollMessages_failed c w err He). reflexivity.
Qed.

Lemma pollMessages_no_panic (c : Pipeline.SQSConsumer) (w : W) :
  existsb Lifecycle.is_panicked (value (Pipeline.pollMessages S c w)) = false.
Proof.
  destruct (existsb Lifecycle.is_panicked (value (Pipeline.pollMessages S c w)))
    eqn:Hex; [| reflexivity].
  exfalso. apply existsb_exists in Hex. destruct Hex as (o & Hin & Ho).
  destruct o; try discriminate.
  destruct (fst (sqs_ReceiveMessage S (Pipeline.queueURL c) 10 20 30 w))
    as [messages | err] eqn:He.
  - rewrite (pollMessages_received c w messages He) in Hin. cbn zeta in Hin.
    cbn [value] in Hin.
    exact (sequential_no_panic c messages _ _ _ _
             (processMessages_sequential S c messages _) Hin).
  - rewrite (pollMessages_failed c w err He) in Hin. destruct Hin.
Qed.

(** ** The consume loop *)

Variable ctx_Done : W -> bool.

Lemma Start_step (fuel : nat) (c : Pipeline.SQSConsumer) (w : W) :
  Lifecycle.Start S ctx_Done (Datatypes.S fuel) c w
  = if ctx_Done w then mkRun (Lifecycle.Returned, []) w []
    else
      let p := Pipeline.pollMessages S c w in
      let r := Lifecycle.Start S ctx_Done fuel c (final p) in
      mkRun (fst (value r), value p :: snd (value r)) (final r)
            (trace p ++ trace r).
Proof.
  cbn [Lifecycle.Start]. destruct (ctx_Done w); [reflexivity |].
  unfold bind at 1. cbn beta zeta.
  rewrite pollMessages_no_panic.
  unfold bind. cbn [ret value final trace]. rewrite app_nil_r. reflexivity.
Qed.

Lemma cycles_receives (c : Pipeline.SQSConsumer) (w w' : W)
  (batches : list (list Outcome)) (t : list Event) :
  Lifecycle.cycles S ctx_Done c w batches t w' ->
  length (filter is_receive t) = length batches.
Proof.
  induction 1 as [| w batches t w' _ _ IH].
  - reflexivity.
  - rewrite filter_app, length_app, pollMessages_receives, IH. reflexivity.
Qed.

Lemma Start_returned (fuel : nat) (c : Pipeline.SQSConsumer) : forall w : W,
  fst (value (Lifecycle.Start S ctx_Done fuel c w)) = Lifecycle.Returned ->
  Lifecycle.cycles S ctx_Done c w
    (snd (value (Lifecycle.Start S ctx_Done fuel c w)))
    (trace (Lifecycle.Start S ctx_Done fuel c w))
    (final (Lifecycle.Start S ctx_Done fuel c w))
  /\ ctx_Done (final (Lifecycle.Start S ctx_Done fuel c w)) = true
  /\ (length (snd (value (Lifecycle.Start S ctx_Done fuel c w))) < fuel)%nat.
Proof.
  induction fuel as [| fuel IH]; intros w Hr.
  - discriminate Hr.
  - rewrite Start_step in Hr |- *.
    destruct (ctx_Done w) eqn:Hd.
    + cbn [value final trace fst snd length].
      split; [apply Lifecycle.cycles_done |]. split; [exact Hd | lia].
    + cbn zeta in Hr |- *. cbn [value final trace fst snd] in Hr |- *.
      destruct (IH _ Hr) as (Hc & Hdone & Hlen).
      split; [apply Lifecycle.cycles_poll; assumption |].
      split; [exact Hdone | cbn [length]; lia].
Qed.

Lemma Start_never_crashes (fuel : nat) (c : Pipeline.SQSConsumer) :
  forall w : W,
    fst (value (Lifecycle.Start S ctx_Done fuel c w)) <> Lifecycle.Crashed.
Proof.
  induction fuel as [| fuel IH]; intros w.
  - discriminate.
  - rewrite Start_step. destruct (ctx_Done w); [discriminate |].
    cbn zeta. cbn [value fst]. apply IH.
Qed.

Lemma Start_enough_fuel (c : Pipeline.SQSConsumer) (w w' : W)
  (batches : list (list Outcome)) (t : list Event) :
  Lifecycle.cycles S ctx_Done c w batches t w' ->
  ctx_Done w' = true ->
  forall fuel,
    (length batches < fuel)%nat ->
    Lifecycle.Start S ctx_Done fuel c w
    = mkRun (Lifecycle.Returned, batches) w' t.
Proof.
  induction 1 as [w | w batches t w' Hd _ IH]; intros Hdone fuel Hlen.
  - destruct fuel as [| fuel]; [simpl in Hlen; lia |].
    rewrite Start_step, Hdone. reflexivity.
  - destruct fuel as [| fuel]; [simpl in Hlen; lia |].
    rewrite Start_step, Hd. cbn zeta.
    rewrite (IH Hdone fuel) by (simpl in Hlen; lia). reflexivity.
Qed.

End CycleFacts.

(** ** The first consumer *)

Section EnvelopedFacts.
Variable S : Services.
Let W : Type := world S.

Lemma sns_processMessage_settles (cs : SNSVariant.SQSConsumer)
  (message : types.Message) (w : W) :
  settled (value (SNSVariant.processMessage S cs message w)) = true
  /\ trace (SNSVariant.processMessage S cs message w)
     = delete_request (SNSVariant.queueURL cs) message
  /\ final (SNSVariant.processMessage S cs message w)
     = final (SNSVariant.deleteMessage S cs message w).
Proof.
  unfold SNSVariant.processMessage, delete_request.
  rewrite <- sns_deleteMessage_trace with (S := S) (w := w).
  destruct (types.Body message) as [body |].
  - destruct (json_Unmarshal_SNSWrapper S body) as [snsWrapper |].
    + destruct (json_Unmarshal_map S (sns.Message snsWrapper));
        unfold SNSVariant.handleBusinessLogic, bind;
        cbn [ret value final trace]; rewrite app_nil_r; auto.
    + unfold bind; cbn [ret value final trace]; rewrite app_nil_r; auto.
  - unfold bind; cbn [ret value final trace]; rewrite app_nil_r; auto.
Qed.

Lemma sns_processMessages_settle (cs : SNSVariant.SQSConsumer)
  (messages : list types.Message) : forall w : W,
  forallb settled (value (SNSVariant.processMessages S cs messages w)) = true
  /\ length (value (SNSVariant.processMessages S cs messages w))
     = length messages
  /\ trace (SNSVariant.processMessages S cs messages w)
     = flat_map (delete_request (SNSVariant.queueURL cs)) messages.
Proof.
  induction messages as [| message rest IH]; intros w.
  - repeat split; reflexivity.
  - cbn [SNSVariant.processMessages]. unfold bind.
    cbn [ret value final trace forallb length flat_map].
    destruct (sns_processMessage_settles cs message w) as (Hs & Ht & _).
    destruct (IH (final (SNSVariant.processMessage S cs message w)))
      as (Hall & Hlen & Htr).
    rewrite Hs, Hall, Hlen, Ht, Htr, app_nil_r. auto.
Qed.

End EnvelopedFacts.

(** ** Draws *)

Section DrawFacts.
Variable S : Services.
Let W : Type := world S.

Lemma processMessage_draws (c : Pipeline.SQSConsumer)
  (message : types.Message) (w : W) (n : Z) :
  In (EvIntn n) (trace (Pipeline.processMessage S c message w)) -> 2 <= n.
Proof.
  assert (Hd : ~ In (EvIntn n) (delete_request (Pipeline.queueURL c) message)).
  { unfold delete_request. destruct (types.ReceiptHandle message); simpl;
      intuition discriminate. }
  destruct (types.Body message) as [body |] eqn:Hb.
  - destruct (json_Unmarshal_any S body) as [msg |] eqn:Hj.
    + destruct (processMessage_trace S c message body msg w Hb Hj)
        as (t & -> & Ht).
      intros Hin. apply in_app_or in Hin. destruct Hin as [Hin | Hin].
      * pose proof (handleBusinessLogic_stages S c msg w) as Hst.
        destruct Hst; simpl in Hin;
          repeat (destruct Hin as [Hin | Hin]; try discriminate Hin);
          try contradiction.
        inversion Hin; subst. assumption.
      * apply Ht in Hin. discriminate Hin.
    + rewrite processMessage_undecodable by (right; exists body; auto).
      cbn [trace]. rewrite deleteMessage_trace. intros Hin.
      exfalso. exact (Hd Hin).
  - rewrite processMessage_undecodable by (left; exact Hb).
    cbn [trace]. rewrite deleteMessage_trace. intros Hin.
    exfalso. exact (Hd Hin).
Qed.

Lemma sequential_draws (c : Pipeline.SQSConsumer)
  (messages : list types.Message) (w w' : W) (os : list Outcome)
  (t : list Event) (n : Z) :
  sequential S c messages w os t w' -> In (EvIntn n) t -> 2 <= n.
Proof.
  induction 1 as [| message rest w os t w' _ IH]; intros Hin.
  - destruct Hin.
  - apply in_app_or in Hin. destruct Hin as [Hin | Hin].
    + eapply processMessage_draws. exact Hin.
    + exact (IH Hin).
Qed.

End DrawFacts.

(** * Further properties of the code *)

Section Extras.
Variable S : Services.
Let W : Type := world S.

(** X2.  No message of a poll cycle panics: the index expression
    [lambdas[rand.Intn(len(lambdas))]] stays in range, and every bound
    handed to [rand.Intn] during the cycle is at least 2, where
    [rand.Intn] itself panics on a bound below 1. *)
Theorem X2_cycle_never_panics (c : Pipeline.SQSConsumer) (w : W) :
  let r := Pipeline.pollMessages S c w in
  ~ In Panicked (value r)
  /\ forall n, In (EvIntn n) (trace r) -> 2 <= n.
Proof.
  intros r. subst r.
  destruct (fst (sqs_ReceiveMessage S (Pipeline.queueURL c) 10 20 30 w))
    as [messages | err] eqn:He.
  - rewrite (pollMessages_received S c w messages He). cbn zeta.
    cbn [value trace].
    pose proof (processMessages_sequential S c messages
                  (snd (sqs_ReceiveMessage S (Pipeline.queueURL c) 10 20 30 w)))
      as Hseq.
    split.
    + eapply sequential_no_panic. exact Hseq.
    + intros n [Hin | Hin]; [discriminate Hin |].
      eapply sequential_draws; eassumption.
  - rewrite (pollMessages_failed S c w err He). cbn [value trace]. split.
    + intros [].
    + intros n Hin. simpl in Hin. intuition discriminate.
Qed.

(** X3.  [InvokeSync] returns a payload exactly when the input marshals,
    the call returns and the output carries no function error, and the
    payload is then the one of the output.  It makes one call with the
    marshalled input, or none at all, leaving the world untouched, when
    the input does not marshal. *)
Theorem X3_InvokeSync_contract
  (functionName : string) (payload : any) (w : W) :
  let r := Pipeline.InvokeSync S functionName payload w in
  (forall response,
      value r = Ok response <->
      exists p,
        json_Marshal S payload = Some p
        /\ answered (fst (lambda_Invoke S functionName p w)) response)
  /\ (json_Marshal S payload = None ->
      r = mkRun (Fail ErrMarshalingPayload) w [])
  /\ (forall p,
        json_Marshal S payload = Some p ->
        trace r = [EvInvoke functionName p]
        /\ final r = snd (lambda_Invoke S functionName p w)
        /\ forall err,
             failed (fst (lambda_Invoke S functionName p w)) err ->
             value r = Fail err).
Proof.
  intros r. subst r. split; [| split].
  - intros response. split.
    + apply InvokeSync_Ok_inv.
    + intros (p & Hm & Ha).
      rewrite (InvokeSync_answered S _ _ _ _ _ Hm Ha). reflexivity.
  - apply InvokeSync_marshal_error.
  - intros p Hm. split; [| split].
    + rewrite InvokeSync_trace, Hm. reflexivity.
    + destruct (answered_or_failed (fst (lambda_Invoke S functionName p w)))
        as [[response Ha] | [err Hf]].
      * rewrite (InvokeSync_answered S _ _ _ _ _ Hm Ha). reflexivity.
      * rewrite (InvokeSync_failed S _ _ _ _ _ Hm Hf). reflexivity.
    + intros err Hf.
      rewrite (InvokeSync_failed S _ _ _ _ _ Hm Hf). reflexivity.
Qed.

(** X4.  When the validator accepted and the registry scan fails, the
    message is deferred with the scan error wrapped twice, by [Scan] and
    by the business logic; no candidate is selected, no worker is invoked
    and nothing is acknowledged. *)
Theorem X4_scan_failure
  (c : Pipeline.SQSConsumer) (message : types.Message) (body : string)
  (msg : any) (w : W) (cause : Error) :
  types.Body message = Some body ->
  json_Unmarshal_any S body = Some msg ->
  accepted S msg w ->
  fst (dynamodb_Scan S (tableName (Pipeline.dynamoDBClient c))
         (final (gate S msg w))) = Fail cause ->
  let r := Pipeline.processMessage S c message w in
  value r
  = Deferred (ErrItemNotFound (tableName (Pipeline.dynamoDBClient c))
                (ErrScanning cause))
  /\ (exists p,
        json_Marshal S msg = Some p
        /\ trace r = [EvInvoke IntegrityLambda p;
                      EvScan (tableName (Pipeline.dynamoDBClient c))])
  /\ unacknowledged (trace r).
Proof.
  intros Hb Hj Hacc Hscan r. subst r.
  assert (Hs : value (scan S c msg w) = Fail (ErrScanning cause)).
  { unfold scan, Pipeline.Scan, bind, call. cbn [value final trace].
    rewrite Hscan. reflexivity. }
  pose proof (scan_exit S c msg w _ Hacc Hs) as Hexit.
  assert (Hv : value (Pipeline.handleBusinessLogic S c msg w)
               = HErr (ErrItemNotFound
                         (tableName (Pipeline.dynamoDBClient c))
                         (ErrScanning cause)))
    by (rewrite Hexit; reflexivity).
  destruct (processMessage_deferred S c message body msg w _ Hb Hj Hv)
    as [Hr Hu].
  destruct (accepted_gate S msg w Hacc) as (p & Hm & Hg).
  split; [rewrite Hr; reflexivity |]. split; [| exact Hu].
  exists p. split; [exact Hm |].
  rewrite Hr. cbn [trace]. rewrite Hexit. cbn [trace].
  rewrite Hg. unfold scan. rewrite Scan_trace. reflexivity.
Qed.

(** X5.  The delete requests of one attempt are fixed by its outcome: a
    dropped or acknowledged message with a receipt handle gets exactly
    one, for its own handle on the queue of the consumer; a deferred
    message, or one without receipt handle, gets none.  A failing delete
    call changes neither. *)
Theorem X5_delete_requests_of_message
  (c : Pipeline.SQSConsumer) (message : types.Message) (w : W) :
  let r := Pipeline.processMessage S c message w in
  filter is_delete (trace r)
  = (if settled (value r)
     then delete_request (Pipeline.queueURL c) message else [])
  /\ (forall q h,
        In (EvDeleteMessage q h) (trace r) ->
        q = Pipeline.queueURL c
        /\ types.ReceiptHandle message = Some h
        /\ settled (value r) = true)
  /\ (forall err, value r = Deferred err -> unacknowledged (trace r)).
Proof.
  intros r. subst r.
  pose proof (processMessage_deletes S c message w) as Hd.
  split; [exact Hd |]. split.
  - intros q h Hin.
    assert (Hf : In (EvDeleteMessage q h)
                    (filter is_delete
                       (trace (Pipeline.processMessage S c message w))))
      by (apply filter_In; split; [exact Hin | reflexivity]).
    rewrite Hd in Hf.
    destruct (settled (value (Pipeline.processMessage S c message w)));
      [| destruct Hf].
    unfold delete_request in Hf.
    destruct (types.ReceiptHandle message) as [rh |]; [| destruct Hf].
    destruct Hf as [Heq | []]. inversion Heq; subst. auto.
  - intros err Hv q h Hin.
    assert (Hf : In (EvDeleteMessage q h)
                    (filter is_delete
                       (trace (Pipeline.processMessage S c message w))))
      by (apply filter_In; split; [exact Hin | reflexivity]).
    rewrite Hd, Hv in Hf. exact Hf.
Qed.

(** X6.  The delete requests of a poll cycle are, in receipt order, those
    of the received messages that were dropped or acknowledged: a cycle
    deletes only receipt handles it received, only on its own queue, and
    sends at most one delete request per received message. *)
Theorem X6_cycle_deletes_only_what_it_received
  (c : Pipeline.SQSConsumer) (w : W) (messages : list types.Message) :
  fst (sqs_ReceiveMessage S (Pipeline.queueURL c) 10 20 30 w) = Ok messages ->
  let r := Pipeline.pollMessages S c w in
  filter is_delete (trace r)
  = delete_requests (Pipeline.queueURL c) messages (value r)
  /\ (forall q h,
        In (EvDeleteMessage q h) (trace r) ->
        q = Pipeline.queueURL c
        /\ exists message,
             In message messages /\ types.ReceiptHandle message = Some h)
  /\ (length (filter is_delete (trace r)) <= length messages)%nat.
Proof.
  intros He r. subst r.
  assert (Hd : filter is_delete (trace (Pipeline.pollMessages S c w))
               = delete_requests (Pipeline.queueURL c) messages
                   (value (Pipeline.pollMessages S c w))).
  { rewrite (pollMessages_received S c w messages He). cbn zeta.
    cbn [value trace filter is_delete].
    eapply sequential_deletes. apply processMessages_sequential. }
  split; [exact Hd |]. split.
  - intros q h Hin.
    apply (delete_requests_In _ messages
             (value (Pipeline.pollMessages S c w))).
    rewrite <- Hd. apply filter_In. split; [exact Hin | reflexivity].
  - rewrite Hd. apply delete_requests_length.
Qed.

(** X7.  A poll cycle sleeps if and only if its receive call failed, and
    then for five seconds: no outcome of a received message, deferred or
    not, makes the cycle back off. *)
Theorem X7_sleep_iff_receive_failed (c : Pipeline.SQSConsumer) (w : W) :
  let r := Pipeline.pollMessages S c w in
  forall d,
    In (EvSleep d) (trace r) <->
    (exists err,
        fst (sqs_ReceiveMessage S (Pipeline.queueURL c) 10 20 30 w)
        = Fail err)
    /\ d = 5 * Second.
Proof.
  intros r d. subst r.
  destruct (fst (sqs_ReceiveMessage S (Pipeline.queueURL c) 10 20 30 w))
    as [messages | err] eqn:He.
  - rewrite (pollMessages_received S c w messages He). cbn zeta.
    cbn [trace]. split.
    + intros [Hin | Hin]; [discriminate Hin |]. exfalso.
      pose proof (processMessages_calls S c messages _ _ _ _
                    (processMessages_sequential S c messages _) _ Hin) as Hc.
      discriminate Hc.
    + intros [(err & Herr) _]. discriminate Herr.
  - rewrite (pollMessages_failed S c w err He). cbn [trace]. split.
    + intros [Hin | [Hin | []]]; [discriminate Hin |].
      inversion Hin. split; [exists err; reflexivity | reflexivity].
    + intros [_ ->]. right. left. reflexivity.
Qed.

(** X8.  The filter loop succeeds exactly when every scanned row decodes,
    and then it has appended to the slice the decoded descriptors whose
    status is Healthy, in scan order; it fails, with the decoding error,
    exactly when some row does not decode.  Filtering two scans one after
    the other is filtering their concatenation. *)
Theorem X8_health_filter (items : list Item) (acc : list Lambda) :
  (Pipeline.healthyLambdas S items acc = Ok (acc ++ healthy_of S items) <->
   forall item, In item items -> attributevalue_UnmarshalMap S item <> None)
  /\ (Pipeline.healthyLambdas S items acc = Fail ErrFailedToUnmarshalItem <->
      exists item,
        In item items /\ attributevalue_UnmarshalMap S item = None)
  /\ (forall lambdas,
        Pipeline.healthyLambdas S items acc = Ok lambdas ->
        lambdas = acc ++ healthy_of S items)
  /\ (forall more,
        healthy_of S (items ++ more)
        = healthy_of S items ++ healthy_of S more).
Proof.
  split; [| split; [| split]].
  - split.
    + intros H. apply healthyLambdas_Ok in H. destruct H as [_ Hall].
      exact Hall.
    + intros Hall.
      destruct (Pipeline.healthyLambdas S items acc) as [lambdas | err] eqn:H.
      * apply healthyLambdas_Ok in H. destruct H as [-> _]. reflexivity.
      * apply healthyLambdas_Fail in H. destruct H as (_ & item & Hin & Hn).
        exfalso. exact (Hall item Hin Hn).
  - split.
    + intros H. apply healthyLambdas_Fail in H. destruct H as [_ H]. exact H.
    + intros (item & Hin & Hn).
      eapply healthyLambdas_malformed; eassumption.
  - intros lambdas H. apply healthyLambdas_Ok in H. destruct H as [H _].
    exact H.
  - intros more. unfold healthy_of. rewrite flat_map_app, filter_app.
    reflexivity.
Qed.

(** X11.  The first consumer settles every message: its business logic
    is a stub that returns nil, so a message is dropped or acknowledged,
    never deferred, and each received message with a receipt handle gets
    its delete request, in receipt order, whatever its body. *)
Theorem X11_enveloped_consumer_settles_everything
  (cs : SNSVariant.SQSConsumer) (w : W) (messages : list types.Message) :
  fst (sqs_ReceiveMessage S (SNSVariant.queueURL cs) 10 20 30 w)
  = Ok messages ->
  let r := SNSVariant.pollMessages S cs w in
  forallb settled (value r) = true
  /\ length (value r) = length messages
  /\ trace r
     = EvReceiveMessage (SNSVariant.queueURL cs) 10 20 30
       :: flat_map (delete_request (SNSVariant.queueURL cs)) messages.
Proof.
  intros He r. subst r.
  unfold SNSVariant.pollMessages, bind, call. cbn [value final trace].
  rewrite He.
  destruct (sns_processMessages_settle S cs messages
              (snd (sqs_ReceiveMessage S (SNSVariant.queueURL cs) 10 20 30 w)))
    as (Hall & Hlen & Htr).
  split; [exact Hall |]. split; [exact Hlen |].
  cbn [app]. rewrite Htr. reflexivity.
Qed.

(** X12.  [InvokeSyncWithResponse] makes the call of [InvokeSync] and no
    other; it returns the error of [InvokeSync] unchanged, the decoding
    error when the answer does not decode, and nil with the decoded
    answer otherwise.  The integrity gate of the business logic is this
    function at [LambdaResponse] followed by the test on the status
    code. *)
Theorem X12_InvokeSyncWithResponse
  (R : Type) (unmarshal : string -> option R)
  (functionName : string) (payload : any) (w : W) :
  let d := Client.InvokeSyncWithResponse S unmarshal functionName payload w in
  let i := Pipeline.InvokeSync S functionName payload w in
  trace d = trace i
  /\ final d = final i
  /\ (forall err, value d = Client.InvokeFailed err <-> value i = Fail err)
  /\ (forall response,
        value d = Client.Written response <->
        exists bytes, value i = Ok bytes /\ unmarshal bytes = Some response)
  /\ (value d = Client.ErrUnmarshalingResponse <->
      exists bytes, value i = Ok bytes /\ unmarshal bytes = None)
  /\ (accepted S payload w <->
      exists integrity,
        value (Client.InvokeSyncWithResponse S
                 (json_Unmarshal_LambdaResponse S) IntegrityLambda payload w)
        = Client.Written integrity
        /\ StatusCode integrity = 200).
Proof.
  intros d i. subst d i.
  unfold Client.InvokeSyncWithResponse, bind.
  split; [| split; [| split; [| split; [| split]]]].
  - destruct (value (Pipeline.InvokeSync S functionName payload w))
      as [bytes | err]; [destruct (unmarshal bytes) |];
      cbn [ret trace]; apply app_nil_r.
  - destruct (value (Pipeline.InvokeSync S functionName payload w))
      as [bytes | err]; [destruct (unmarshal bytes) |]; reflexivity.
  - intros err.
    destruct (value (Pipeline.InvokeSync S functionName payload w))
      as [bytes | err']; [destruct (unmarshal bytes) |];
      cbn [ret value]; split; intros H; inversion H; reflexivity.
  - intros response.
    destruct (value (Pipeline.InvokeSync S functionName payload w))
      as [bytes | err'].
    + destruct (unmarshal bytes) as [response' |] eqn:Hu; cbn [ret value].
      * split.
        -- intros H. inversion H; subst. exists bytes. auto.
        -- intros (b & Hb & Hr). inversion Hb; subst. congruence.
      * split; [discriminate |].
        intros (b & Hb & Hr). inversion Hb; subst. congruence.
    + cbn [ret value]. split; [discriminate |].
      intros (b & Hb & _). discriminate Hb.
  - destruct (value (Pipeline.InvokeSync S functionName payload w))
      as [bytes | err'].
    + destruct (unmarshal bytes) as [response' |] eqn:Hu; cbn [ret value].
      * split; [discriminate |].
        intros (b & Hb & Hr). inversion Hb; subst. congruence.
      * split; [intros _; exists bytes; auto | reflexivity].
    + cbn [ret value]. split; [discriminate |].
      intros (b & Hb & _). discriminate Hb.
  - unfold accepted, gate.
    destruct (value (Pipeline.InvokeSync S IntegrityLambda payload w))
      as [bytes | err'].
    + destruct (json_Unmarshal_LambdaResponse S bytes) as [integrity |] eqn:Hu;
        cbn [ret value].
      * split.
        -- intros (p & i & Hp & Hi & Hc). inversion Hp; subst.
           exists integrity. split; [reflexivity | congruence].
        -- intros (i & Hi & Hc). inversion Hi; subst.
           exists bytes, i. auto.
      * split.
        -- intros (p & i & Hp & Hi & Hc). inversion Hp; subst. congruence.
        -- intros (i & Hi & _). discriminate Hi.
    + cbn [ret value]. split.
      * intros (p & i & Hp & _). discriminate Hp.
      * intros (i & Hi & _). discriminate Hi.
Qed.

End Extras.

Section LoopExtras.
Variable S : Services.
Let W : Type := world S.
Variable ctx_Done : W -> bool.

(** X9.  [Start] never dies of a panic.  When the context is already
    cancelled it returns without a single call.  Whenever it returns, its
    run was a sequence of whole poll cycles, each begun with the context
    not cancelled, one receive request per cycle, and the context is
    cancelled in the world it returns in: cancellation is looked at
    between cycles only. *)
Theorem X9_Start_stops_between_cycles
  (fuel : nat) (c : Pipeline.SQSConsumer) (w : W) :
  let r := Lifecycle.Start S ctx_Done fuel c w in
  fst (value r) <> Lifecycle.Crashed
  /\ (ctx_Done w = true -> (0 < fuel)%nat ->
      r = mkRun (Lifecycle.Returned, []) w [])
  /\ (fst (value r) = Lifecycle.Returned ->
      Lifecycle.cycles S ctx_Done c w (snd (value r)) (trace r) (final r)
      /\ ctx_Done (final r) = true
      /\ length (filter is_receive (trace r)) = length (snd (value r))).
Proof.
  intros r. subst r. split; [| split].
  - apply Start_never_crashes.
  - intros Hd Hf. destruct fuel as [| fuel]; [lia |].
    rewrite Start_step, Hd. reflexivity.
  - intros Hr. destruct (Start_returned S ctx_Done fuel c w Hr)
      as (Hc & Hdone & _).
    split; [exact Hc |]. split; [exact Hdone |].
    eapply cycles_receives. exact Hc.
Qed.

(** X10.  [Start] does return once the context is cancelled: if after
    some whole poll cycles the context is cancelled, then with any fuel
    above the number of those cycles the run is exactly these cycles and
    ends in [Returned]. *)
Theorem X10_Start_returns_once_cancelled
  (c : Pipeline.SQSConsumer) (w w' : W)
  (batches : list (list Outcome)) (t : list Event) (fuel : nat) :
  Lifecycle.cycles S ctx_Done c w batches t w' ->
  ctx_Done w' = true ->
  (length batches < fuel)%nat ->
  Lifecycle.Start S ctx_Done fuel c w
  = mkRun (Lifecycle.Returned, batches) w' t.
Proof.
  intros Hc Hd Hf. exact (Start_enough_fuel S ctx_Done c w w' batches t Hc Hd fuel Hf).
Qed.

End LoopExtras.

(** * The further properties on concrete runs *)

(** Positive infinity does not marshal: no call, same world. *)
Lemma X3_witness :
  json_Marshal Fake.services Scenario.infinity = None
  /\ Pipeline.InvokeSync Fake.services "arn:A" Scenario.infinity Fake.world0
     = mkRun (Fail ErrMarshalingPayload) Fake.world0 [].
Proof.
  split; [reflexivity |].
  exact (proj1 (proj2 (X3_InvokeSync_contract Fake.services "arn:A"
                         Scenario.infinity Fake.world0)) eq_refl).
Defined.

(** The registry is down: validator, scan, and the order is deferred. *)
Lemma X4_witness :
  let r := Pipeline.processMessage Fake.services Fake.consumer
             Fake.order_message Scenario.world_registry_down in
  accepted Fake.services Fake.order Scenario.world_registry_down
  /\ value r
     = Deferred (ErrItemNotFound "lambdas"
                   (ErrScanning (SdkError "ProvisionedThroughputExceeded")))
  /\ unacknowledged (trace r).
Proof.
  intros r.
  assert (Hacc : accepted Fake.services Fake.order
                   Scenario.world_registry_down)
    by (apply accepted_order; reflexivity).
  split; [exact Hacc |].
  destruct (X4_scan_failure Fake.services Fake.consumer Fake.order_message
              Fake.order_body Fake.order Scenario.world_registry_down
              (SdkError "ProvisionedThroughputExceeded")
              eq_refl eq_refl Hacc eq_refl)
    as (Hv & _ & Hu).
  split; [exact Hv | exact Hu].
Defined.

(** The batch of two: both messages are deleted, in receipt order. *)
Lemma X6_witness :
  let r := Pipeline.pollMessages Fake.services Fake.consumer
             Fake.world_batch in
  fst (sqs_ReceiveMessage Fake.services "https://sqs/queue" 10 20 30
         Fake.world_batch)
  = Ok [ Fake.message (Some "not json") (Some "rh-0");
         Fake.message (Some Fake.order_body) (Some "rh-1") ]
  /\ filter is_delete (trace r)
     = [EvDeleteMessage "https://sqs/queue" "rh-0";
        EvDeleteMessage "https://sqs/queue" "rh-1"].
Proof.
  intros r. split; [reflexivity |].
  exact (eq_trans
           (proj1 (X6_cycle_deletes_only_what_it_received Fake.services
                     Fake.consumer Fake.world_batch _ eq_refl))
           eq_refl).
Defined.

(** The shutdown signal arrives after the first delete: one cycle, one
    receive request, then [Start] returns. *)
Lemma X9_witness :
  let r := Lifecycle.Start Fake.services Scenario.cancelled_after_delete 3
             Fake.consumer Fake.world0 in
  fst (value r) = Lifecycle.Returned
  /\ Scenario.cancelled_after_delete (final r) = true
  /\ length (filter is_receive (trace r)) = length (snd (value r))
  /\ snd (value r) = [[Acknowledged]].
Proof.
  intros r.
  assert (Hr : fst (value r) = Lifecycle.Returned) by reflexivity.
  destruct (proj2 (proj2 (X9_Start_stops_between_cycles Fake.services
                            Scenario.cancelled_after_delete 3 Fake.consumer
                            Fake.world0)) Hr)
    as (_ & Hd & Hn).
  split; [exact Hr |]. split; [exact Hd |]. split; [exact Hn | reflexivity].
Defined.

Lemma X10_witness :
  let p := Pipeline.pollMessages Fake.services Fake.consumer Fake.world0 in
  Lifecycle.cycles Fake.services Scenario.cancelled_after_delete
    Fake.consumer Fake.world0 [value p] (trace p ++ []) (final p)
  /\ Scenario.cancelled_after_delete (final p) = true
  /\ Lifecycle.Start Fake.services Scenario.cancelled_after_delete 2
       Fake.consumer Fake.world0
     = mkRun (Lifecycle.Returned, [value p]) (final p) (trace p ++ []).
Proof.
  intros p.
  assert (Hc : Lifecycle.cycles Fake.services Scenario.cancelled_after_delete
                 Fake.consumer Fake.world0 [value p] (trace p ++ []) (final p)).
  { apply Lifecycle.cycles_poll; [reflexivity | apply Lifecycle.cycles_done]. }
  split; [exact Hc |]. split; [reflexivity |].
  apply (X10_Start_returns_once_cancelled Fake.services
           Scenario.cancelled_after_delete Fake.consumer Fake.world0 (final p)
           [value p] (trace p ++ []) 2 Hc eq_refl).
  apply le_n.
Defined.

(** Three messages for the first consumer: the two with a receipt handle
    are deleted, the bare order included. *)
Lemma X11_witness :
  let r := SNSVariant.pollMessages Fake.services Fake.sns_consumer
             Scenario.world_sns_batch in
  fst (sqs_ReceiveMessage Fake.services "https://sqs/queue" 10 20 30
         Scenario.world_sns_batch) = Ok Scenario.sns_batch
  /\ value r = [Acknowledged; Dropped; Acknowledged]
  /\ trace r
     = [EvReceiveMessage "https://sqs/queue" 10 20 30;
        EvDeleteMessage "https://sqs/queue" "rh-1";
        EvDeleteMessage "https://sqs/queue" "rh-2"].
Proof.
  intros r. split; [reflexivity |]. split; [reflexivity |].
  exact (eq_trans
           (proj2 (proj2 (X11_enveloped_consumer_settles_everything
                            Fake.services Fake.sns_consumer
                            Scenario.world_sns_batch Scenario.sns_batch
                            eq_refl)))
           eq_refl).
Defined.

(** The validator accepts the order: the client function returns its
    verdict with status 200. *)
Lemma X12_witness :
  accepted Fake.services Fake.order Fake.world0
  /\ exists integrity,
       value (Client.InvokeSyncWithResponse Fake.services
                (json_Unmarshal_LambdaResponse Fake.services)
                IntegrityLambda Fake.order Fake.world0)
       = Client.Written integrity
       /\ StatusCode integrity = 200.
Proof.
  assert (Hacc : accepted Fake.services Fake.order Fake.world0)
    by (apply accepted_order; reflexivity).
  split; [exact Hacc |].
  exact (proj1 (proj2 (proj2 (proj2 (proj2 (proj2
           (X12_InvokeSyncWithResponse Fake.services LambdaResponse
              (json_Unmarshal_LambdaResponse Fake.services)
              IntegrityLambda Fake.order Fake.world0)))))) Hacc).
Defined.

(** * Progress and fairness of the selection *)

Section ProgressFacts.
Variable S : Services.
Let W : Type := world S.

Lemma healthyLambdas_all_decode (items : list Item) :
  (forall item, In item items -> attributevalue_UnmarshalMap S item <> None) ->
  Pipeline.healthyLambdas S items [] = Ok (healthy_of S items).
Proof.
  intros Hall.
  destruct (Pipeline.healthyLambdas S items []) as [lambdas | err] eqn:H.
  - apply healthyLambdas_Ok in H. destruct H as [-> _]. reflexivity.
  - apply healthyLambdas_Fail in H. destruct H as (_ & item & Hin & Hn).
    exfalso. exact (Hall item Hin Hn).
Qed.

(** A non-empty candidate list always yields a candidate. *)
Lemma selectLambda_selects (lambdas : list Lambda) (w : W) :
  lambdas <> [] ->
  exists l,
    In l lambdas /\ value (Pipeline.selectLambda S lambdas w) = Selected l.
Proof.
  intros Hne.
  destruct (selectLambda_cases S lambdas w)
    as [[Hnil _] | [(l & -> & Hr) | (_ & l & _ & Hin & Hr)]].
  - contradiction.
  - exists l. split; [left; reflexivity | rewrite Hr; reflexivity].
  - exists l. split; [exact Hin | rewrite Hr; reflexivity].
Qed.

End ProgressFacts.

Section Progress.
Variable S : Services.
Let W : Type := world S.

(** X14.  A decoded message makes it to the end whenever each stage can
    succeed: if the validator accepts, the scan returns rows that all
    decode, at least one is Healthy, and every Healthy worker answers the
    payload at the time of the dispatch, then a Healthy worker is invoked with it, the message is
    acknowledged, and its delete request, if it has a receipt handle, is
    the only one sent. *)
Theorem X14_attempt_succeeds
  (c : Pipeline.SQSConsumer) (message : types.Message) (body : string)
  (msg : any) (w : W) (items : list Item) (p : string) :
  types.Body message = Some body ->
  json_Unmarshal_any S body = Some msg ->
  json_Marshal S msg = Some p ->
  accepted S msg w ->
  fst (dynamodb_Scan S (tableName (Pipeline.dynamoDBClient c))
         (final (gate S msg w))) = Ok items ->
  (forall item, In item items -> attributevalue_UnmarshalMap S item <> None) ->
  healthy_of S items <> [] ->
  (forall l,
      In l (healthy_of S items) ->
      exists response,
        answered
          (fst (lambda_Invoke S (ARN l) p
                  (final (pick S c msg w (healthy_of S items)))))
          response) ->
  let r := Pipeline.processMessage S c message w in
  value r = Acknowledged
  /\ (exists l,
        In l (healthy_of S items) /\ Status_ l = Healthy
        /\ In (EvInvoke (ARN l) p) (trace r))
  /\ filter is_delete (trace r)
     = delete_request (Pipeline.queueURL c) message.
Proof.
  intros Hb Hj Hm Hacc Hscan Hall Hne Hans r. subst r.
  assert (Hs : value (scan S c msg w) = Ok items).
  { unfold scan, Pipeline.Scan, bind, call. cbn [value final trace].
    rewrite Hscan. reflexivity. }
  pose proof (healthyLambdas_all_decode S items Hall) as Hh.
  assert (Hfil : filtered S c msg w (healthy_of S items))
    by (exists items; auto).
  destruct (selectLambda_selects S (healthy_of S items)
              (final (scan S c msg w)) Hne) as (l & Hin & Hp).
  change (value (pick S c msg w (healthy_of S items)) = Selected l) in Hp.
  destruct (Hans l Hin) as (response & Ha).
  pose proof (dispatch_exit S c msg w _ l Hacc Hfil Hp) as Hexit.
  assert (Hd : dispatch S c msg w (healthy_of S items) l
               = mkRun (Ok response)
                   (snd (lambda_Invoke S (ARN l) p
                           (final (pick S c msg w (healthy_of S items)))))
                   [EvInvoke (ARN l) p]).
  { unfold dispatch. apply InvokeSync_answered; assumption. }
  rewrite Hd in Hexit. cbn [value final trace] in Hexit.
  assert (Hv : value (Pipeline.processMessage S c message w) = Acknowledged).
  { rewrite (processMessage_decoded S c message body msg w Hb Hj). cbn zeta.
    rewrite Hexit. reflexivity. }
  split; [exact Hv |]. split.
  - exists l. split; [exact Hin |].
    split; [exact (proj1 (healthy_of_In S items l Hin)) |].
    destruct (processMessage_trace S c message body msg w Hb Hj)
      as (t & -> & _).
    apply in_or_app. left. rewrite Hexit. cbn [trace].
    apply in_or_app. right. apply in_or_app. right.
    apply in_or_app. right. left. reflexivity.
  - rewrite processMessage_deletes, Hv. reflexivity.
Qed.

(** X15.  No candidate is left out of the random choice: with two or
    more candidates, each of them sits at a position below [len], and
    whenever [rand.Intn(len)] draws that position the candidate is the one
    selected. *)
Theorem X15_every_candidate_can_be_selected
  (lambdas : list Lambda) (l : Lambda) :
  (2 <= length lambdas)%nat ->
  In l lambdas ->
  let n := Z.of_nat (length lambdas) in
  exists i,
    0 <= i < n
    /\ forall w : W,
         fst (rand_Intn S n w) = i ->
         Pipeline.selectLambda S lambdas w
         = mkRun (Selected l) (snd (rand_Intn S n w)) [EvIntn n].
Proof.
  intros Hlen Hin n.
  apply In_nth_error in Hin. destruct Hin as (k & Hk).
  assert (Hklt : (k < length lambdas)%nat)
    by (apply nth_error_Some; congruence).
  exists (Z.of_nat k). split; [subst n; lia |].
  intros w Hdraw.
  destruct (selectLambda_many S lambdas w Hlen) as (l' & Hi & Hrun).
  fold n in Hi, Hrun. rewrite Hdraw in Hi.
  unfold index in Hi.
  destruct (Z.of_nat k <? 0) eqn:Hneg; [apply Z.ltb_lt in Hneg; lia |].
  rewrite Nat2Z.id in Hi. assert (l' = l) by congruence. subst l'.
  exact Hrun.
Qed.

End Progress.

(** The first scenario meets every premise: the order is acknowledged
    and deleted once. *)
Lemma X14_witness :
  let r := Pipeline.processMessage Fake.services Fake.consumer
             Fake.order_message Fake.world0 in
  accepted Fake.services Fake.order Fake.world0
  /\ healthy_of Fake.services [Fake.rowA; Fake.rowC; Fake.rowB]
     = [Fake.lambdaA; Fake.lambdaB]
  /\ value r = Acknowledged
  /\ filter is_delete (trace r)
     = delete_request "https://sqs/queue" Fake.order_message.
Proof.
  intros r.
  assert (Hacc : accepted Fake.services Fake.order Fake.world0)
    by (apply accepted_order; reflexivity).
  assert (Hall : forall item,
             In item [Fake.rowA; Fake.rowC; Fake.rowB] ->
             attributevalue_UnmarshalMap Fake.services item <> None).
  { intros item [<- | [<- | [<- | []]]]; discriminate. }
  assert (Hans : forall l,
             In l (healthy_of Fake.services
                     [Fake.rowA; Fake.rowC; Fake.rowB]) ->
             exists response,
               answered
                 (fst (lambda_Invoke Fake.services (ARN l) Fake.order_body
                         (final (pick Fake.services Fake.consumer Fake.order
                                   Fake.world0
                                   (healthy_of Fake.services
                                      [Fake.rowA; Fake.rowC; Fake.rowB])))))
                 response).
  { intros l [<- | [<- | []]]; exists Fake.done_response;
      eexists; repeat split; reflexivity. }
  assert (Hne : healthy_of Fake.services [Fake.rowA; Fake.rowC; Fake.rowB]
                <> []) by discriminate.
  split; [exact Hacc |]. split; [reflexivity |].
  destruct (X14_attempt_succeeds Fake.services Fake.consumer
              Fake.order_message Fake.order_body Fake.order Fake.world0
              [Fake.rowA; Fake.rowC; Fake.rowB] Fake.order_body
              eq_refl eq_refl eq_refl Hacc eq_refl Hall Hne Hans)
    as (Hv & _ & Hd).
  split; [exact Hv | exact Hd].
Defined.

(** Worker A, the first of two candidates, is selected when the draw is
    0. *)
Lemma X15_witness :
  exists i,
    0 <= i < 2
    /\ forall w : Fake.World,
         fst (Fake.Intn 2 w) = i ->
         value (Pipeline.selectLambda Fake.services
                  [Fake.lambdaA; Fake.lambdaB] w)
         = Selected Fake.lambdaA.
Proof.
  destruct (X15_every_candidate_can_be_selected Fake.services
              [Fake.lambdaA; Fake.lambdaB] Fake.lambdaA
              (le_n 2) (or_introl eq_refl))
    as (i & Hi & Hsel).
  exists i. split; [exact Hi |].
  intros w Hd. rewrite (Hsel w Hd). reflexivity.
Defined.

(** * The stages of one attempt *)

Section Stages.
Variable S : Services.
Let W : Type := world S.

(** X1.  One attempt on a decoded message calls, in this order, the
    validator, the registry scan, [rand.Intn] and the worker, each at most
    once: the scan only after the validator call, the worker only after
    the scan, and the draw, made exactly when two or more candidates
    remain, between the two; with a single candidate the worker follows
    the scan directly.  A decoded message is never dropped, and its
    delete request comes last and only when the outcome is
    [Acknowledged], which takes at least validator, scan and worker.  So
    an attempt makes at most two Lambda calls, one scan, one draw and one
    delete. *)
Theorem X1_attempt_stages
  (c : Pipeline.SQSConsumer) (message : types.Message) (body : string)
  (msg : any) (w : W) :
  types.Body message = Some body ->
  json_Unmarshal_any S body = Some msg ->
  let r := Pipeline.processMessage S c message w in
  let t := trace (Pipeline.handleBusinessLogic S c msg w) in
  stages (tableName (Pipeline.dynamoDBClient c)) t
  /\ value r <> Dropped
  /\ trace r
     = t ++ match value r with
            | Acknowledged => delete_request (Pipeline.queueURL c) message
            | _ => []
            end
  /\ (value r = Acknowledged -> (3 <= length t)%nat)
  /\ (forall lambdas,
        accepted S msg w ->
        filtered S c msg w lambdas ->
        forall n,
          In (EvIntn n) t <->
          (2 <= length lambdas)%nat /\ n = Z.of_nat (length lambdas))
  /\ (length (filter is_invoke (trace r)) <= 2)%nat
  /\ (length (filter is_scan (trace r)) <= 1)%nat
  /\ (length (filter is_draw (trace r)) <= 1)%nat
  /\ (length (filter is_delete (trace r)) <= 1)%nat.
Proof.
  intros Hb Hj r t. subst r t.
  pose proof (handleBusinessLogic_stages S c msg w) as Hst.
  pose proof (handleBusinessLogic_nil_length S c msg w) as Hlen.
  pose proof (handleBusinessLogic_no_panic S c msg w) as Hnp.
  assert (Hnd : value (Pipeline.processMessage S c message w) <> Dropped).
  { rewrite (processMessage_decoded S c message body msg w Hb Hj). cbn zeta.
    destruct (value (Pipeline.handleBusinessLogic S c msg w)); discriminate. }
  assert (Htr : trace (Pipeline.processMessage S c message w)
                = trace (Pipeline.handleBusinessLogic S c msg w)
                  ++ match value (Pipeline.processMessage S c message w) with
                     | Acknowledged =>
                         delete_request (Pipeline.queueURL c) message
                     | _ => []
                     end).
  { rewrite (processMessage_decoded S c message body msg w Hb Hj). cbn zeta.
    destruct (value (Pipeline.handleBusinessLogic S c msg w));
      cbn [value trace]; rewrite ?app_nil_r; try reflexivity.
    rewrite deleteMessage_trace. reflexivity. }
  split; [exact Hst |]. split; [exact Hnd |]. split; [exact Htr |].
  split; [| split].
  - intros Hack. apply Hlen.
    rewrite (processMessage_decoded S c message body msg w Hb Hj) in Hack.
    cbn zeta in Hack.
    destruct (value (Pipeline.handleBusinessLogic S c msg w));
      [reflexivity | discriminate Hack | discriminate Hack].
  - intros lambdas Hacc Hfil n.
    assert (Hne : lambdas <> []) by (destruct Hfil as (? & _ & _ & H); exact H).
    destruct (selectLambda_selects S lambdas (final (scan S c msg w)) Hne)
      as (l & _ & Hp).
    change (value (pick S c msg w lambdas) = Selected l) in Hp.
    rewrite (dispatch_exit S c msg w lambdas l Hacc Hfil Hp). cbn [trace].
    destruct (accepted_gate S msg w Hacc) as (p & Hm & Hg).
    rewrite Hg, (dispatch_trace S c msg w _ _ p Hm).
    unfold scan at 1. rewrite Scan_trace.
    unfold pick. rewrite selectLambda_trace.
    destruct (2 <=? length lambdas)%nat eqn:Hl; cbn [app]; simpl In.
    + apply Nat.leb_le in Hl. split.
      * intros [H | [H | [H | [H | []]]]]; try discriminate H.
        inversion H. split; [exact Hl | reflexivity].
      * intros [_ ->]. right; right; left. reflexivity.
    + apply Nat.leb_gt in Hl. split.
      * intros [H | [H | [H | []]]]; discriminate H.
      * intros [H _]. lia.
  - rewrite Htr. rewrite !filter_app, !length_app.
    set (d := match value (Pipeline.processMessage S c message w) with
              | Acknowledged => delete_request (Pipeline.queueURL c) message
              | _ => []
              end).
    assert (Hd : filter is_invoke d = [] /\ filter is_scan d = []
                 /\ filter is_draw d = []
                 /\ (length (filter is_delete d) <= 1)%nat).
    { subst d. unfold delete_request.
      destruct (value (Pipeline.processMessage S c message w)),
        (types.ReceiptHandle message); simpl; repeat split; lia. }
    destruct Hd as (-> & -> & -> & Hdel).
    destruct Hst; cbn [filter is_invoke is_scan is_draw is_delete length] in *;
      repeat split; lia.
Qed.

End Stages.

(** Two candidates: validator, scan, draw, worker B, delete.  One
    candidate: validator, scan, worker B, delete, and no draw. *)
Lemma X1_witness :
  let r := Pipeline.processMessage Fake.services Fake.consumer
             Fake.order_message Fake.world0 in
  let r1 := Pipeline.processMessage Fake.services Fake.consumer
              Fake.order_message Scenario.world_single in
  types.Body Fake.order_message = Some Fake.order_body
  /\ json_Unmarshal_any Fake.services Fake.order_body = Some Fake.order
  /\ stages "lambdas"
       (trace (Pipeline.handleBusinessLogic Fake.services Fake.consumer
                 Fake.order Fake.world0))
  /\ trace r
     = [EvInvoke IntegrityLambda Fake.order_body; EvScan "lambdas";
        EvIntn 2; EvInvoke "arn:B" Fake.order_body;
        EvDeleteMessage "https://sqs/queue" "rh-1"]
  /\ trace r1
     = [EvInvoke IntegrityLambda Fake.order_body; EvScan "lambdas";
        EvInvoke "arn:B" Fake.order_body;
        EvDeleteMessage "https://sqs/queue" "rh-1"].
Proof.
  intros r r1.
  destruct (X1_attempt_stages Fake.services Fake.consumer Fake.order_message
              Fake.order_body Fake.order Fake.world0 eq_refl eq_refl)
    as (Hst & _ & Htr & _).
  destruct (X1_attempt_stages Fake.services Fake.consumer Fake.order_message
              Fake.order_body Fake.order Scenario.world_single
              eq_refl eq_refl)
    as (_ & _ & Htr1 & _).
  split; [reflexivity |]. split; [reflexivity |]. split; [exact Hst |].
  split.
  - exact (eq_trans Htr eq_refl).
  - exact (eq_trans Htr1 eq_refl).
Defined.
